(** * swr-idb-cache: the cache provider and its IndexedDB mirror

    A shallow embedding of [createCacheProvider] in its two variants:

    - [V2], the state-record variant (entries are SWR states with
      [isValidating] / [isLoading] flags, the handler decides staleness and
      eligibility, failures of durable writes go to [onError]);
    - [V1], the plain-value variant (eligibility is decided by the shape of
      the key, [isResponseResult]).

    The in-memory [Map] is an insertion-ordered association list, the object
    store a finite map from keys to raw records, and the promises returned by
    the database are pending requests that the environment settles, each
    fulfilled or rejected, in an order of its choice. *)

From Stdlib Require Import String List Bool Arith Lia.
From stdpp Require Import base option list gmap strings sorting.
Import ListNotations.

Local Open Scope string_scope.
Local Open Scope list_scope.

(** Unlike what SWR types suggest, a key is always a serialized string. *)
Definition TKey : Type := string.

(** ** Exceptions and rejected promises *)

Inductive Exn : Type :=
| TypeError (message : string)
| VersionError
| NotFoundError
| ConstraintError
| DataCloneError
| QuotaExceededError
| HandlerError (message : string).

(** A synchronous computation either returns or throws. *)
Inductive Result (A : Type) : Type :=
| Ok (a : A)
| Throw (e : Exn).
Arguments Ok {A} a.
Arguments Throw {A} e.

#[global] Instance result_ret : MRet Result := fun A a => Ok a.

#[global] Instance result_bind : MBind Result := fun A B k r =>
  match r with
  | Ok a => k a
  | Throw e => Throw e
  end.

(** ** The JavaScript [Map]: keys keep their insertion order *)

Module JsMap.
Section JsMap.
Context {V : Type}.

Definition t : Type := list (TKey * V).

Definition empty : t := [].

Fixpoint get (key : TKey) (m : t) : option V :=
  match m with
  | [] => None
  | (k, v) :: rest => if String.eqb k key then Some v else get key rest
  end.

Fixpoint has (key : TKey) (m : t) : bool :=
  match m with
  | [] => false
  | (k, _) :: rest => if String.eqb k key then true else has key rest
  end.

(** [map.set(key, value)]: an existing key keeps its position, a new one
    goes to the end. *)
Fixpoint set (key : TKey) (value : V) (m : t) : t :=
  match m with
  | [] => [(key, value)]
  | (k, v) :: rest =>
      if String.eqb k key then (k, value) :: rest
      else (k, v) :: set key value rest
  end.

Definition remove (key : TKey) (m : t) : t :=
  List.filter (fun e => negb (String.eqb (fst e) key)) m.

(** [map.delete(key)] returns whether the key was there. *)
Definition delete (key : TKey) (m : t) : bool * t :=
  (has key m, remove key m).

Definition keys (m : t) : list TKey := List.map fst m.

Definition clear (m : t) : t := [].
End JsMap.
Arguments t V : clear implicits.
End JsMap.

(** ** The durable store: an IndexedDB database *)

Module Idb.
Section Idb.
Context {Raw : Type}.

Record ObjectStore : Type := mkObjectStore {
  records : gmap TKey Raw;
  indexNames : list string
}.

(** A database that was never opened has version 0 and no object store. *)
Record Database : Type := mkDatabase {
  version : nat;
  objectStores : gmap string ObjectStore
}.

Definition emptyObjectStore : ObjectStore :=
  {| records := ∅; indexNames := [] |}.

Definition deleteObjectStore (name : string) (d : Database) : Result Database :=
  match objectStores d !! name with
  | None => Throw NotFoundError
  | Some _ =>
      Ok {| version := version d;
            objectStores := base.delete name (objectStores d) |}
  end.

Definition createObjectStore (name : string) (d : Database) : Result Database :=
  match objectStores d !! name with
  | Some _ => Throw ConstraintError
  | None =>
      Ok {| version := version d;
            objectStores := <[name := emptyObjectStore]> (objectStores d) |}
  end.

Definition putObjectStore (name : string) (os : ObjectStore) (d : Database)
  : Database :=
  {| version := version d; objectStores := <[name := os]> (objectStores d) |}.

(** [openDB(name, version, {upgrade})]: the upgrade callback runs in a
    version-change transaction when the requested version is above the
    stored one; if it throws, the transaction aborts and the open fails. *)
Definition openDB (requested : nat)
    (upgrade : Database -> nat -> Result Database) (d : Database)
  : Result Database :=
  if Nat.eqb requested 0 then Throw (TypeError "version")
  else if Nat.ltb requested (version d) then Throw VersionError
  else if Nat.ltb (version d) requested then
    upgraded ← upgrade d (version d);
    Ok {| version := requested; objectStores := objectStores upgraded |}
  else Ok d.

(** [db.transaction(storeName, mode).store] *)
Definition transactionStore (name : string) (d : Database) : Result ObjectStore :=
  match objectStores d !! name with
  | Some os => Ok os
  | None => Throw NotFoundError
  end.

Definition recordLe (a b : TKey * Raw) : Prop :=
  String.leb (fst a) (fst b) = true.

#[local] Instance recordLe_dec (a b : TKey * Raw) : Decision (recordLe a b).
Proof. unfold recordLe. apply _. Defined.

(** A forward cursor visits every record once, in ascending key order. *)
Definition openCursor (os : ObjectStore) : list (TKey * Raw) :=
  merge_sort recordLe (map_to_list (records os)).

(** [cursor.delete()] *)
Definition cursorDelete (key : TKey) (os : ObjectStore) : ObjectStore :=
  {| records := base.delete key (records os); indexNames := indexNames os |}.

(** Requests against the object store issued after construction. *)
Inductive Request : Type :=
| Put (value : Raw) (key : TKey)
| Delete (key : TKey)
| Clear.

Definition perform (r : Request) (os : ObjectStore) : ObjectStore :=
  {| records :=
       match r with
       | Put value key => <[key := value]> (records os)
       | Delete key => base.delete key (records os)
       | Clear => ∅
       end;
     indexNames := indexNames os |}.

(** What is chained on the promise of a request. *)
Inductive OnRejected : Type :=
| CatchOnError
| NoCatch.

(** How the environment settles a promise. *)
Inductive Outcome : Type :=
| Fulfilled
| Rejected (e : Exn).

(** Every record of the store, resp. every record a queued [put] would
    write, satisfies [Q]. *)
Definition recordsSatisfy (Q : TKey -> Raw -> Prop) (os : ObjectStore) : Prop :=
  forall key raw, records os !! key = Some raw -> Q key raw.

Definition putsSatisfy (Q : TKey -> Raw -> Prop) (requests : list Request)
  : Prop :=
  forall key raw, Put raw key ∈ requests -> Q key raw.
End Idb.
Arguments ObjectStore Raw : clear implicits.
Arguments Database Raw : clear implicits.
Arguments Request Raw : clear implicits.
End Idb.

(** ** The state-record variant of the provider *)

Module V2.
Section Provider.
Context {Data ErrorT Raw : Type}.

(** What [state.error] may hold: an object that is [instanceof Error], or
    any other value of the caller's error type. *)
Inductive ErrorValue : Type :=
| NativeError (message : string)
| OtherError (e : ErrorT).

(** [SWRState<Data, Error>]: every field is optional. *)
Record TState : Type := mkState {
  data : option Data;
  error : option ErrorValue;
  isValidating : option bool;
  isLoading : option bool
}.

Definition instanceofError (e : option ErrorValue) : bool :=
  match e with
  | Some (NativeError _) => true
  | _ => false
  end.

(** [flag === true] *)
Definition strictlyTrue (flag : option bool) : bool :=
  match flag with
  | Some true => true
  | _ => false
  end.

(** Do not store as non-native errors are not serializable, other
    properties are optional. *)
Definition isFetchInfo (state : TState) : bool :=
  instanceofError (error state)
  || strictlyTrue (isValidating state)
  || strictlyTrue (isLoading state).

(** The storage handler: [None] is JavaScript's [undefined], the stale
    sentinel of [revive] and the do-not-persist sentinel of [replace].

    Modelled from the spec: the declaration of the handler is in
    [./types], which is not among the sources; the optional hook
    [upgradeObjectStore] receives the object store just created and the
    old version and may extend the schema of the store. *)
Record StorageHandler : Type := mkStorageHandler {
  revive : TKey -> Raw -> Result (option TState);
  replace : TKey -> TState -> Result (option Raw);
  upgradeObjectStore :
    option (Idb.ObjectStore Raw -> nat -> Result (Idb.ObjectStore Raw))
}.

(** [TConfig]; [version] and [onError] are optional.  The callback
    [onError] is called with a failure and returns, or throws itself. *)
Record TConfig : Type := mkConfig {
  dbName : string;
  storeName : string;
  storageHandler : StorageHandler;
  version : option nat;
  onError : option (Exn -> Result unit)
}.

(** What the closure returned by the factory captures ([map], the object
    store [storeName] of [db], the only part of the database it addresses,
    and [onError]), together with the promises not yet settled, the calls
    made to [onError] and the rejections nobody handled. *)
Record Provider : Type := mkProvider {
  map : JsMap.t TState;
  store : Idb.ObjectStore Raw;
  pending : list (Idb.Request Raw * Idb.OnRejected);
  onErrorCallback : Exn -> Result unit;
  onErrorCalls : list Exn;
  unhandledRejections : list Exn
}.

Definition withMap (m : JsMap.t TState) (p : Provider) : Provider :=
  {| map := m; store := store p; pending := pending p;
     onErrorCallback := onErrorCallback p;
     onErrorCalls := onErrorCalls p;
     unhandledRejections := unhandledRejections p |}.

(** A request is queued on the connection with what is chained on its
    promise. *)
Definition issue (r : Idb.Request Raw) (h : Idb.OnRejected) (p : Provider)
  : Provider :=
  {| map := map p; store := store p; pending := pending p ++ [(r, h)];
     onErrorCallback := onErrorCallback p;
     onErrorCalls := onErrorCalls p;
     unhandledRejections := unhandledRejections p |}.

(** The environment settles one of the pending requests, the [i]-th in
    the order of issue; the completion order of the writes is not fixed.
    A rejection with [.catch(onError)] chained calls [onError]; the promise
    that [catch] returns is dropped, so what [onError] throws is a
    rejection nobody handles, as is the rejection of a request with nothing
    chained. *)
Definition settle (i : nat) (o : Idb.Outcome) (p : Provider) : Provider :=
  match pending p !! i with
  | None => p
  | Some (r, h) =>
      let rest := base.delete i (pending p) in
      match o with
      | Idb.Fulfilled =>
          {| map := map p; store := Idb.perform r (store p); pending := rest;
             onErrorCallback := onErrorCallback p;
             onErrorCalls := onErrorCalls p;
             unhandledRejections := unhandledRejections p |}
      | Idb.Rejected e =>
          match h with
          | Idb.CatchOnError =>
              {| map := map p; store := store p; pending := rest;
                 onErrorCallback := onErrorCallback p;
                 onErrorCalls := onErrorCalls p ++ [e];
                 unhandledRejections :=
                   match onErrorCallback p e with
                   | Ok _ => unhandledRejections p
                   | Throw thrown => unhandledRejections p ++ [thrown]
                   end |}
          | Idb.NoCatch =>
              {| map := map p; store := store p; pending := rest;
                 onErrorCallback := onErrorCallback p;
                 onErrorCalls := onErrorCalls p;
                 unhandledRejections := unhandledRejections p ++ [e] |}
          end
      end
  end.

Section Factory.
Variable config : TConfig.

Definition requestedVersion : nat := default 1 (version config).

(** [onError = () => {}] *)
Definition configuredOnError : Exn -> Result unit :=
  default (fun _ => Ok ()) (onError config).

(** The [upgrade] callback given to [openDB]. *)
Definition upgrade (upgradeDb : Idb.Database Raw) (oldVersion : nat)
  : Result (Idb.Database Raw) :=
  (* Delete previous object store on upgrade *)
  dropped ←
    (if negb (Nat.eqb oldVersion 0) && Nat.ltb oldVersion requestedVersion
     then Idb.deleteObjectStore (storeName config) upgradeDb
     else Ok upgradeDb);
  created ← Idb.createObjectStore (storeName config) dropped;
  match upgradeObjectStore (storageHandler config) with
  | None => Ok created
  | Some hook =>
      objectStore ← hook Idb.emptyObjectStore oldVersion;
      Ok (Idb.putObjectStore (storeName config) objectStore created)
  end.

(** The cursor loop: get storage snapshot. *)
Fixpoint drain (cursor : list (TKey * Raw)) (m : JsMap.t TState)
    (os : Idb.ObjectStore Raw)
  : Result (JsMap.t TState * Idb.ObjectStore Raw) :=
  match cursor with
  | [] => Ok (m, os)
  | (key, raw) :: rest =>
      value ← revive (storageHandler config) key raw;
      match value with
      | None => (* Stale *) drain rest m (Idb.cursorDelete key os)
      | Some v => (* OK *) drain rest (JsMap.set key v m) os
      end
  end.

Definition hydrate (os : Idb.ObjectStore Raw)
  : Result (JsMap.t TState * Idb.ObjectStore Raw) :=
  drain (Idb.openCursor os) JsMap.empty os.

(** The SWR cache produced by the provider. *)
Record TCache : Type := mkCache {
  keys : Provider -> list TKey;
  get : TKey -> Provider -> option TState;
  set : TKey -> TState -> Provider -> Result unit * Provider;
  delete : TKey -> Provider -> Provider;
  clear : Provider -> Provider
}.

Definition cacheProvider (globalCache : JsMap.t TState) : TCache :=
  {| keys := fun p => JsMap.keys (map p);

     get := fun key p => JsMap.get key (map p);

     set := fun key value p =>
       let p := withMap (JsMap.set key value (map p)) p in
       if isFetchInfo value then (Ok (), p)
       else
         match replace (storageHandler config) key value with
         | Throw e => (Throw e, p)
         | Ok None => (Ok (), p)
         | Ok (Some storeValue) =>
             (Ok (), issue (Idb.Put storeValue key) Idb.CatchOnError p)
         end;

     delete := fun key p =>
       let '(existed, m) := JsMap.delete key (map p) in
       let p := withMap m p in
       if existed then issue (Idb.Delete key) Idb.CatchOnError p else p;

     clear := fun p =>
       let p := withMap (JsMap.clear (map p)) p in
       issue Idb.Clear Idb.NoCatch p |}.

Definition createCacheProvider (d : Idb.Database Raw) : Result Provider :=
  db ← Idb.openDB requestedVersion upgrade d;
  os ← Idb.transactionStore (storeName config) db;
  '(m, os') ← hydrate os;
  Ok {| map := m; store := os'; pending := [];
        onErrorCallback := configuredOnError; onErrorCalls := [];
        unhandledRejections := [] |}.

(** *** Runs: calls of the consumer interleaved with settlements *)

Inductive Call : Type :=
| CallKeys
| CallGet (key : TKey)
| CallSet (key : TKey) (value : TState)
| CallDelete (key : TKey)
| CallClear.

(** What the caller of a method observes. *)
Inductive Returned : Type :=
| RetKeys (ks : list TKey)
| RetGet (value : option TState)
| RetVoid
| Thrown (e : Exn).

Inductive Event : Type :=
| Invoke (c : Call)
| Settle (i : nat) (o : Idb.Outcome).

Definition invoke (cache : TCache) (c : Call) (p : Provider)
  : Returned * Provider :=
  match c with
  | CallKeys => (RetKeys (keys cache p), p)
  | CallGet key => (RetGet (get cache key p), p)
  | CallSet key value =>
      match set cache key value p with
      | (Ok _, p') => (RetVoid, p')
      | (Throw e, p') => (Thrown e, p')
      end
  | CallDelete key => (RetVoid, delete cache key p)
  | CallClear => (RetVoid, clear cache p)
  end.

Fixpoint run (cache : TCache) (events : list Event) (p : Provider)
  : list Returned * Provider :=
  match events with
  | [] => ([], p)
  | Invoke c :: rest =>
      let '(r, p') := invoke cache c p in
      let '(rs, p'') := run cache rest p' in
      (r :: rs, p'')
  | Settle i o :: rest => run cache rest (settle i o p)
  end.
End Factory.
End Provider.
Arguments ErrorValue ErrorT : clear implicits.
Arguments TState Data ErrorT : clear implicits.
Arguments StorageHandler Data ErrorT Raw : clear implicits.
Arguments TConfig Data ErrorT Raw : clear implicits.
Arguments Provider Data ErrorT Raw : clear implicits.
Arguments TCache Data ErrorT Raw : clear implicits.
Arguments Call Data ErrorT : clear implicits.
Arguments Returned Data ErrorT : clear implicits.
Arguments Event Data ErrorT : clear implicits.
End V2.

(** ** The plain-value variant of the provider *)

Module V1.
Section Provider.
(** [TValue = Data | Error] *)
Context {TValue Raw : Type}.

(** Modelled from the spec: the declaration of the handler is in
    [./types], which is not among the sources; here [revive] and [replace]
    take the value alone, and the optional hook receives the object store
    just created and the old version. *)
Record StorageHandler : Type := mkStorageHandler {
  revive : Raw -> Result TValue;
  replace : TValue -> Result Raw;
  upgradeObjectStore :
    option (Idb.ObjectStore Raw -> nat -> Result (Idb.ObjectStore Raw))
}.

Record TConfig : Type := mkConfig {
  dbName : string;
  storeName : string;
  storageHandler : StorageHandler;
  version : option nat
}.

Record Provider : Type := mkProvider {
  map : JsMap.t TValue;
  store : Idb.ObjectStore Raw;
  pending : list (Idb.Request Raw);
  unhandledRejections : list Exn
}.

Definition withMap (m : JsMap.t TValue) (p : Provider) : Provider :=
  {| map := m; store := store p; pending := pending p;
     unhandledRejections := unhandledRejections p |}.

Definition issue (r : Idb.Request Raw) (p : Provider) : Provider :=
  {| map := map p; store := store p; pending := pending p ++ [r];
     unhandledRejections := unhandledRejections p |}.

Definition settle (i : nat) (o : Idb.Outcome) (p : Provider) : Provider :=
  match pending p !! i with
  | None => p
  | Some r =>
      let rest := base.delete i (pending p) in
      match o with
      | Idb.Fulfilled =>
          {| map := map p; store := Idb.perform r (store p); pending := rest;
             unhandledRejections := unhandledRejections p |}
      | Idb.Rejected e =>
          {| map := map p; store := store p; pending := rest;
             unhandledRejections := unhandledRejections p ++ [e] |}
      end
  end.

(** Ignore internal values (error, isValidating): [!key.startsWith('$')] *)
Definition isResponseResult (key : TKey) : bool :=
  negb (String.prefix "$" key).

Section Factory.
Variable config : TConfig.

Definition requestedVersion : nat := default 1 (version config).

Definition upgrade (upgradeDb : Idb.Database Raw) (oldVersion : nat)
  : Result (Idb.Database Raw) :=
  created ← Idb.createObjectStore (storeName config) upgradeDb;
  match upgradeObjectStore (storageHandler config) with
  | None => Ok created
  | Some hook =>
      objectStore ← hook Idb.emptyObjectStore oldVersion;
      Ok (Idb.putObjectStore (storeName config) objectStore created)
  end.

Fixpoint drain (cursor : list (TKey * Raw)) (m : JsMap.t TValue)
  : Result (JsMap.t TValue) :=
  match cursor with
  | [] => Ok m
  | (key, raw) :: rest =>
      value ← revive (storageHandler config) raw;
      drain rest (JsMap.set key value m)
  end.

Definition hydrate (os : Idb.ObjectStore Raw) : Result (JsMap.t TValue) :=
  drain (Idb.openCursor os) JsMap.empty.

Record TCache : Type := mkCache {
  get : TKey -> Provider -> option TValue;
  set : TKey -> TValue -> Provider -> Result unit * Provider;
  delete : TKey -> Provider -> Provider
}.

Definition cacheProvider (globalCache : JsMap.t TValue) : TCache :=
  {| get := fun key p => JsMap.get key (map p);

     set := fun key value p =>
       let p := withMap (JsMap.set key value (map p)) p in
       if isResponseResult key then
         match replace (storageHandler config) value with
         | Throw e => (Throw e, p)
         | Ok storeValue => (Ok (), issue (Idb.Put storeValue key) p)
         end
       else (Ok (), p);

     delete := fun key p =>
       let '(existed, m) := JsMap.delete key (map p) in
       let p := withMap m p in
       if existed && isResponseResult key
       then issue (Idb.Delete key) p
       else p |}.

Definition createCacheProvider (d : Idb.Database Raw) : Result Provider :=
  db ← Idb.openDB requestedVersion upgrade d;
  os ← Idb.transactionStore (storeName config) db;
  m ← hydrate os;
  Ok {| map := m; store := os; pending := []; unhandledRejections := [] |}.

Inductive Call : Type :=
| CallGet (key : TKey)
| CallSet (key : TKey) (value : TValue)
| CallDelete (key : TKey).

Inductive Returned : Type :=
| RetGet (value : option TValue)
| RetVoid
| Thrown (e : Exn).

Inductive Event : Type :=
| Invoke (c : Call)
| Settle (i : nat) (o : Idb.Outcome).

Definition invoke (cache : TCache) (c : Call) (p : Provider)
  : Returned * Provider :=
  match c with
  | CallGet key => (RetGet (get cache key p), p)
  | CallSet key value =>
      match set cache key value p with
      | (Ok _, p') => (RetVoid, p')
      | (Throw e, p') => (Thrown e, p')
      end
  | CallDelete key => (RetVoid, delete cache key p)
  end.

Fixpoint run (cache : TCache) (events : list Event) (p : Provider)
  : list Returned * Provider :=
  match events with
  | [] => ([], p)
  | Invoke c :: rest =>
      let '(r, p') := invoke cache c p in
      let '(rs, p'') := run cache rest p' in
      (r :: rs, p'')
  | Settle i o :: rest => run cache rest (settle i o p)
  end.
End Factory.
End Provider.
Arguments StorageHandler TValue Raw : clear implicits.
Arguments TConfig TValue Raw : clear implicits.
Arguments Provider TValue Raw : clear implicits.
Arguments TCache TValue Raw : clear implicits.
Arguments Call TValue : clear implicits.
Arguments Returned TValue : clear implicits.
Arguments Event TValue : clear implicits.
End V1.

(** ** The value the specification expects from [get] *)

Module Spec.
Section Spec.
Context {Data ErrorT : Type}.

(** What a call does to the Mirror's entry for [key], if anything: a [set]
    on that key leaves its value, a [delete] on that key or a [clear]
    leaves the missing sentinel. *)
Definition affects (key : TKey) (c : V2.Call Data ErrorT)
  : option (option (V2.TState Data ErrorT)) :=
  match c with
  | V2.CallSet k value => if String.eqb k key then Some (Some value) else None
  | V2.CallDelete k => if String.eqb k key then Some None else None
  | V2.CallClear => Some None
  | V2.CallKeys | V2.CallGet _ => None
  end.

(** The last Mirror-affecting call for [key], looking back from the end. *)
Fixpoint lastAffecting (key : TKey) (backwards : list (V2.Event Data ErrorT))
  : option (option (V2.TState Data ErrorT)) :=
  match backwards with
  | [] => None
  | V2.Invoke c :: earlier =>
      match affects key c with
      | Some outcome => Some outcome
      | None => lastAffecting key earlier
      end
  | V2.Settle _ _ :: earlier => lastAffecting key earlier
  end.

(** The value implied for [key] by a sequence of events, [before] being
    what [get] returned before the sequence. *)
Definition impliedValue (key : TKey) (events : list (V2.Event Data ErrorT))
    (before : option (V2.TState Data ErrorT))
  : option (V2.TState Data ErrorT) :=
  default before (lastAffecting key (rev events)).

(** An entry is transient when it describes an operation in flight. *)
Definition isTransient (state : V2.TState Data ErrorT) : bool :=
  V2.strictlyTrue (V2.isValidating state)
  || V2.strictlyTrue (V2.isLoading state).
End Spec.

Section Origin.
Context {Data ErrorT Raw : Type}.

(** The record [raw] under [key] is the handler's encoding of an entry
    that some [set] of the run stored under [key], an entry with no
    in-flight flag and no native error. *)
Definition encodedBy (handler : V2.StorageHandler Data ErrorT Raw)
    (events : list (V2.Event Data ErrorT)) (key : TKey) (raw : Raw) : Prop :=
  exists value,
    V2.Invoke (V2.CallSet key value) ∈ events
    /\ V2.isFetchInfo value = false
    /\ V2.replace handler key value = Ok (Some raw).
End Origin.
End Spec.

(** ** Concrete handlers, stores and providers *)

Module Examples.
Definition State : Type := V2.TState string string.

Definition loaded (value : string) : State :=
  {| V2.data := Some value; V2.error := None;
     V2.isValidating := None; V2.isLoading := None |}.

Definition validating : State :=
  {| V2.data := None; V2.error := None;
     V2.isValidating := Some true; V2.isLoading := None |}.

Definition failed (message : string) : State :=
  {| V2.data := None; V2.error := Some (V2.NativeError message);
     V2.isValidating := Some false; V2.isLoading := Some false |}.

(** Modelled from the spec: the default handler of
    [./storage-handler/simple], which is not among the sources; it encodes
    and decodes plain values as they are and does not persist an entry
    holding a native error object. *)
Definition simpleStorageHandler : V2.StorageHandler string string State :=
  {| V2.revive := fun _ storeObject => Ok (Some storeObject);
     V2.replace := fun _ value =>
       if V2.instanceofError (V2.error value) then Ok None else Ok (Some value);
     V2.upgradeObjectStore := None |}.

(** A handler that stamps records and finds those older than [maxAge]
    stale; its hook declares an index on the stamp. *)
Definition timestampHandler (now maxAge : nat)
  : V2.StorageHandler string string (nat * State) :=
  {| V2.revive := fun _ storeObject =>
       if Nat.ltb (fst storeObject + maxAge) now then Ok None
       else Ok (Some (snd storeObject));
     V2.replace := fun _ value => Ok (Some (now, value));
     V2.upgradeObjectStore := Some (fun objectStore _ =>
       Ok {| Idb.records := Idb.records objectStore;
             Idb.indexNames := "ts" :: Idb.indexNames objectStore |}) |}.

(** A handler whose [replace] throws. *)
Definition throwingHandler : V2.StorageHandler string string State :=
  {| V2.revive := fun _ storeObject => Ok (Some storeObject);
     V2.replace := fun _ _ => Throw (HandlerError "replace");
     V2.upgradeObjectStore := None |}.

Definition config (handler : V2.StorageHandler string string State)
    (version : option nat) : V2.TConfig string string State :=
  {| V2.dbName := "swr"; V2.storeName := "responses";
     V2.storageHandler := handler; V2.version := version;
     V2.onError := None |}.

Definition timestampConfig (now maxAge : nat) (version : option nat)
  : V2.TConfig string string (nat * State) :=
  {| V2.dbName := "swr"; V2.storeName := "responses";
     V2.storageHandler := timestampHandler now maxAge;
     V2.version := version; V2.onError := None |}.

(** A provider over an empty store, nothing pending. *)
Definition fresh : V2.Provider string string State :=
  {| V2.map := JsMap.empty; V2.store := Idb.emptyObjectStore;
     V2.pending := []; V2.onErrorCallback := fun _ => Ok ();
     V2.onErrorCalls := []; V2.unhandledRejections := [] |}.

(** A database that was never opened. *)
Definition blank : Idb.Database State :=
  {| Idb.version := 0; Idb.objectStores := ∅ |}.

(** Two records of a store named [responses]. *)
Definition responses : Idb.ObjectStore State :=
  {| Idb.records := <["user:1" := loaded "a"]> (<["user:2" := loaded "b"]> ∅);
     Idb.indexNames := [] |}.

(** A database left at version 1 with these records. *)
Definition populated : Idb.Database State :=
  {| Idb.version := 1; Idb.objectStores := {[ "responses" := responses ]} |}.

(** Stamped records, one written at time 10 and one at time 90. *)
Definition stamped : Idb.ObjectStore (nat * State) :=
  {| Idb.records :=
       <["old" := (10, loaded "a")]> (<["new" := (90, loaded "b")]> ∅);
     Idb.indexNames := ["ts"] |}.

Definition stampedDatabase : Idb.Database (nat * State) :=
  {| Idb.version := 1; Idb.objectStores := {[ "responses" := stamped ]} |}.

(** The plain-value variant with the identity handler. *)
Definition plainHandler : V1.StorageHandler string string :=
  {| V1.revive := fun storeObject => Ok storeObject;
     V1.replace := fun value => Ok value;
     V1.upgradeObjectStore := None |}.

Definition plainConfig (version : option nat) : V1.TConfig string string :=
  {| V1.dbName := "swr"; V1.storeName := "responses";
     V1.storageHandler := plainHandler; V1.version := version |}.

Definition plainFresh : V1.Provider string string :=
  {| V1.map := JsMap.empty; V1.store := Idb.emptyObjectStore;
     V1.pending := []; V1.unhandledRejections := [] |}.

Definition plainDatabase : Idb.Database string :=
  {| Idb.version := 1;
     Idb.objectStores :=
       {[ "responses" :=
            {| Idb.records := <["user:1" := "a"]> ∅;
               Idb.indexNames := [] |} ]} |}.
End Examples.

(** ** The durable store once the queued writes have landed *)

Module Durable.
Section Durable.
Context {Raw : Type}.

(** The object store after every request of the list has been fulfilled,
    in the order of issue. *)
Definition flush (requests : list (Idb.Request Raw)) (os : Idb.ObjectStore Raw)
  : Idb.ObjectStore Raw :=
  fold_left (fun store r => Idb.perform r store) requests os.
End Durable.
End Durable.

(** ** The value expected from [get] in the plain-value variant *)

Module SpecPlain.
Section SpecPlain.
Context {TValue : Type}.

(** This variant has no [clear]: a [set] on the key leaves its value, a
    [delete] on the key leaves the missing sentinel. *)
Definition affects (key : TKey) (c : V1.Call TValue) : option (option TValue) :=
  match c with
  | V1.CallSet k value => if String.eqb k key then Some (Some value) else None
  | V1.CallDelete k => if String.eqb k key then Some None else None
  | V1.CallGet _ => None
  end.

Fixpoint lastAffecting (key : TKey) (backwards : list (V1.Event TValue))
  : option (option TValue) :=
  match backwards with
  | [] => None
  | V1.Invoke c :: earlier =>
      match affects key c with
      | Some outcome => Some outcome
      | None => lastAffecting key earlier
      end
  | V1.Settle _ _ :: earlier => lastAffecting key earlier
  end.

Definition impliedValue (key : TKey) (events : list (V1.Event TValue))
    (before : option TValue) : option TValue :=
  default before (lastAffecting key (rev events)).
End SpecPlain.
End SpecPlain.

(** ** More handlers and stores *)

Module Cases.
(** A handler that cannot decode a record with no data. *)
Definition strictHandler : V2.StorageHandler string string Examples.State :=
  {| V2.revive := fun _ storeObject =>
       match V2.data storeObject with
       | Some _ => Ok (Some storeObject)
       | None => Throw (HandlerError "revive")
       end;
     V2.replace := fun _ value => Ok (Some value);
     V2.upgradeObjectStore := None |}.

(** A store holding a record the strict handler cannot decode. *)
Definition damaged : Idb.ObjectStore Examples.State :=
  {| Idb.records :=
       <["user:1" := Examples.loaded "a"]> (<["user:9" := Examples.validating]> ∅);
     Idb.indexNames := [] |}.

(** A database at version 1 whose only store has another name. *)
Definition renamed : Idb.Database Examples.State :=
  {| Idb.version := 1;
     Idb.objectStores := {[ "legacy" := Examples.responses ]} |}.

(** A provider whose Mirror and store both hold [user:1]. *)
Definition warm : V2.Provider string string Examples.State :=
  {| V2.map := [("user:1", Examples.loaded "a")];
     V2.store :=
       {| Idb.records := <["user:1" := Examples.loaded "a"]> ∅;
          Idb.indexNames := [] |};
     V2.pending := []; V2.onErrorCallback := fun _ => Ok ();
     V2.onErrorCalls := []; V2.unhandledRejections := [] |}.

(** A plain-value handler whose [replace] throws. *)
Definition plainThrowing : V1.StorageHandler string string :=
  {| V1.revive := fun storeObject => Ok storeObject;
     V1.replace := fun _ => Throw (HandlerError "replace");
     V1.upgradeObjectStore := None |}.

Definition plainThrowingConfig : V1.TConfig string string :=
  {| V1.dbName := "swr"; V1.storeName := "responses";
     V1.storageHandler := plainThrowing; V1.version := None |}.

Definition plainStore : Idb.ObjectStore string :=
  {| Idb.records := <["user:1" := "a"]> (<["$req$user:1" := "b"]> ∅);
     Idb.indexNames := [] |}.

Definition plainStored : Idb.Database string :=
  {| Idb.version := 1; Idb.objectStores := {[ "responses" := plainStore ]} |}.

Definition plainBlank : Idb.Database string :=
  {| Idb.version := 0; Idb.objectStores := ∅ |}.

(** An entry holding an error that is not a native [Error] object. *)
Definition refused : Examples.State :=
  {| V2.data := None; V2.error := Some (V2.OtherError "404");
     V2.isValidating := Some false; V2.isLoading := None |}.

(** A handler that does not persist an entry without data. *)
Definition pickyHandler : V2.StorageHandler string string Examples.State :=
  {| V2.revive := fun _ storeObject => Ok (Some storeObject);
     V2.replace := fun _ value =>
       match V2.data value with
       | Some _ => Ok (Some value)
       | None => Ok None
       end;
     V2.upgradeObjectStore := None |}.

(** What hydration at time 100 leaves of the stamped records. *)
Definition pruned : Idb.ObjectStore (nat * Examples.State) :=
  Idb.cursorDelete "old" Examples.stamped.

Definition stampedBlank : Idb.Database (nat * Examples.State) :=
  {| Idb.version := 0; Idb.objectStores := ∅ |}.

(** A run in which every write is fulfilled in the order of issue. *)
Definition orderly : list (V2.Event string string) :=
  [V2.Invoke (V2.CallSet "user:1" (Examples.loaded "a"));
   V2.Invoke (V2.CallSet "user:2" Examples.validating);
   V2.Settle 0 Idb.Fulfilled;
   V2.Invoke (V2.CallDelete "user:1");
   V2.Settle 0 Idb.Fulfilled].

(** An [onError] that reports a full disk by throwing. *)
Definition rethrowQuota (failure : Exn) : Result unit :=
  match failure with
  | QuotaExceededError => Throw (HandlerError "quota")
  | _ => Ok ()
  end.

(** A provider over an empty store whose [onError] is [rethrowQuota]. *)
Definition grumpy : V2.Provider string string Examples.State :=
  {| V2.map := JsMap.empty; V2.store := Idb.emptyObjectStore;
     V2.pending := []; V2.onErrorCallback := rethrowQuota;
     V2.onErrorCalls := []; V2.unhandledRejections := [] |}.

(** A handler whose hook seeds the new object store with a record. *)
Definition seedingHandler : V2.StorageHandler string string Examples.State :=
  {| V2.revive := fun _ storeObject => Ok (Some storeObject);
     V2.replace := fun _ value => Ok (Some value);
     V2.upgradeObjectStore := Some (fun objectStore _ =>
       Ok {| Idb.records :=
               <["schema" := Examples.loaded "v2"]> (Idb.records objectStore);
             Idb.indexNames := Idb.indexNames objectStore |}) |}.

(** A run without [clear] in which every write is rejected. *)
Definition failing : list (V2.Event string string) :=
  [V2.Invoke (V2.CallSet "user:1" (Examples.loaded "a"));
   V2.Invoke (V2.CallDelete "user:1");
   V2.Settle 1 (Idb.Rejected NotFoundError);
   V2.Settle 0 (Idb.Rejected QuotaExceededError)].
End Cases.

(** * Properties *)

(** ** The in-memory map *)

Section JsMapFacts.
Context {V : Type}.
Implicit Types (m : JsMap.t V) (key k : TKey) (value : V).

Lemma get_set_eq key value m : JsMap.get key (JsMap.set key value m) = Some value.
Proof.
  induction m as [|[k v] rest IH]; simpl.
  - by rewrite String.eqb_refl.
  - destruct (String.eqb k key) eqn:E; simpl; rewrite E; auto.
Qed.

Lemma get_set_ne key k value m :
  k <> key -> JsMap.get key (JsMap.set k value m) = JsMap.get key m.
Proof.
  intros Hne. induction m as [|[k' v] rest IH]; simpl.
  - apply String.eqb_neq in Hne. by rewrite Hne.
  - destruct (String.eqb k' k) eqn:E; simpl.
    + apply String.eqb_eq in E. subst k'.
      apply String.eqb_neq in Hne. by rewrite Hne.
    + by rewrite IH.
Qed.

Lemma get_set key k value m :
  JsMap.get key (JsMap.set k value m) =
  if String.eqb k key then Some value else JsMap.get key m.
Proof.
  destruct (String.eqb k key) eqn:E.
  - apply String.eqb_eq in E. subst. apply get_set_eq.
  - apply String.eqb_neq in E. by apply get_set_ne.
Qed.

Lemma get_remove key k m :
  JsMap.get key (JsMap.remove k m) =
  if String.eqb k key then None else JsMap.get key m.
Proof.
  unfold JsMap.remove.
  induction m as [|[k' v] rest IH]; simpl.
  - by destruct (String.eqb k key).
  - destruct (String.eqb k' k) eqn:E; simpl.
    + apply String.eqb_eq in E. subst k'. rewrite IH.
      by destruct (String.eqb k key).
    + rewrite IH. destruct (String.eqb k' key) eqn:E'; [|done].
      apply String.eqb_eq in E'. subst k'.
      rewrite String.eqb_sym in E. by rewrite E.
Qed.

Lemma has_false_get key m : JsMap.has key m = false -> JsMap.get key m = None.
Proof.
  induction m as [|[k v] rest IH]; simpl; [done|].
  by destruct (String.eqb k key).
Qed.

Lemma has_true_get key m :
  JsMap.has key m = true -> exists value, JsMap.get key m = Some value.
Proof.
  induction m as [|[k v] rest IH]; simpl; [done|].
  destruct (String.eqb k key); eauto.
Qed.

Lemma remove_absent key m : JsMap.has key m = false -> JsMap.remove key m = m.
Proof.
  unfold JsMap.remove.
  induction m as [|[k v] rest IH]; simpl; [done|].
  destruct (String.eqb k key); [done|]. simpl. intros H. by rewrite IH.
Qed.

Lemma has_set key k value m :
  JsMap.has key (JsMap.set k value m) = String.eqb k key || JsMap.has key m.
Proof.
  induction m as [|[k' v] rest IH]; simpl.
  - by destruct (String.eqb k key).
  - destruct (String.eqb k' k) eqn:E; simpl.
    + apply String.eqb_eq in E. subst k'.
      by destruct (String.eqb k key).
    + rewrite IH. destruct (String.eqb k' key) eqn:E'; [|done].
      by rewrite orb_true_r.
Qed.
End JsMapFacts.

(** ** The state-record variant: reads follow the calls *)

Section V2Mirror.
Context {Data ErrorT Raw : Type}.
Variable config : V2.TConfig Data ErrorT Raw.
Variable globalCache : JsMap.t (V2.TState Data ErrorT).

Abbreviation cache := (V2.cacheProvider config globalCache).
Abbreviation handler := (V2.storageHandler config).

Implicit Types (p : V2.Provider Data ErrorT Raw) (key : TKey)
  (value : V2.TState Data ErrorT) (events : list (V2.Event Data ErrorT)).

Lemma settle_map i o p : V2.map (V2.settle i o p) = V2.map p.
Proof.
  unfold V2.settle. destruct (V2.pending p !! i) as [[r h]|]; [|done].
  destruct o; [done|]. by destruct h.
Qed.

(** Whatever [set] decides about persistence, the map holds the value. *)
Lemma set_map key value p :
  V2.map (V2.set cache key value p).2 = JsMap.set key value (V2.map p).
Proof.
  simpl. destruct (V2.isFetchInfo value); [done|].
  by destruct (V2.replace handler key value) as [[storeValue|]|e].
Qed.

Lemma delete_map key p :
  V2.map (V2.delete cache key p) = JsMap.remove key (V2.map p).
Proof. simpl. by destruct (JsMap.has key (V2.map p)). Qed.

Lemma clear_map p : V2.map (V2.clear cache p) = [].
Proof. reflexivity. Qed.

Lemma invoke_get key c p :
  V2.get cache key (V2.invoke cache c p).2 =
  default (V2.get cache key p) (Spec.affects key c).
Proof.
  destruct c as [|k|k value|k|]; try reflexivity.
  - change (V2.invoke cache (V2.CallSet k value) p).2
      with (match V2.set cache k value p with
            | (Ok _, p') => (@V2.RetVoid Data ErrorT, p')
            | (Throw e, p') => (V2.Thrown e, p')
            end).2.
    pose proof (set_map k value p) as Hmap.
    destruct (V2.set cache k value p) as [[u|e] p']; simpl in *;
      rewrite Hmap, get_set; by destruct (String.eqb k key).
  - change (V2.get cache key (V2.invoke cache (V2.CallDelete k) p).2)
      with (JsMap.get key (V2.map (V2.delete cache k p))).
    rewrite delete_map, get_remove. simpl.
    by destruct (String.eqb k key).
Qed.

Lemma run_app events1 events2 p :
  (V2.run cache (events1 ++ events2) p).2 =
  (V2.run cache events2 (V2.run cache events1 p).2).2.
Proof.
  revert p. induction events1 as [|[c|i o] rest IH]; intros p; simpl; [done| |].
  - destruct (V2.invoke cache c p) as [r p'] eqn:Hinv.
    specialize (IH p').
    destruct (V2.run cache (rest ++ events2) p') as [rs p''].
    destruct (V2.run cache rest p') as [rs1 p1]. simpl in *. done.
  - apply IH.
Qed.

Lemma run_invoke c p :
  (V2.run cache [V2.Invoke c] p).2 = (V2.invoke cache c p).2.
Proof. unfold V2.run. by destruct (V2.invoke cache c p). Qed.

Lemma run_settle i o p :
  (V2.run cache [V2.Settle i o] p).2 = V2.settle i o p.
Proof. reflexivity. Qed.

Lemma get_map key p : V2.get cache key p = JsMap.get key (V2.map p).
Proof. reflexivity. Qed.

Lemma impliedValue_snoc key events e before :
  Spec.impliedValue key (events ++ [e]) before =
  match e with
  | V2.Invoke c =>
      default (Spec.impliedValue key events before) (Spec.affects key c)
  | V2.Settle _ _ => Spec.impliedValue key events before
  end.
Proof.
  unfold Spec.impliedValue. rewrite rev_app_distr. simpl.
  destruct e as [c|i o]; [|done]. by destruct (Spec.affects key c).
Qed.

(** C1. After any sequence of [set] / [delete] / [clear] calls (and reads),
    interleaved with the durable writes settling in any order, fulfilled or
    rejected, [get key] returns the value implied by the last call that
    affected [key] in the Mirror: the value of the last [set], nothing
    after a [delete] or a [clear], and what it returned before if no call
    affected the key.  In particular [set] puts the value in the map
    whatever is decided about persistence, even when the handler throws. *)
Theorem get_follows_last_call events p key :
  V2.get cache key (V2.run cache events p).2 =
    Spec.impliedValue key events (V2.get cache key p)
  /\ (forall value,
        V2.map (V2.set cache key value p).2 = JsMap.set key value (V2.map p)
        /\ V2.get cache key (V2.set cache key value p).2 = Some value).
Proof.
  split.
  - induction events as [|e events IH] using rev_ind; [done|].
    rewrite run_app, impliedValue_snoc.
    destruct e as [c|i o].
    + rewrite run_invoke, <- IH. apply invoke_get.
    + rewrite run_settle, get_map, settle_map, <- get_map. apply IH.
  - intros value. split; [apply set_map|].
    rewrite get_map, set_map. apply get_set_eq.
Qed.
End V2Mirror.

(** ** The state-record variant: what reaches the durable store *)

Section V2Persistence.
Context {Data ErrorT Raw : Type}.
Variable config : V2.TConfig Data ErrorT Raw.
Variable globalCache : JsMap.t (V2.TState Data ErrorT).

Abbreviation cache := (V2.cacheProvider config globalCache).
Abbreviation handler := (V2.storageHandler config).

Implicit Types (p : V2.Provider Data ErrorT Raw) (key : TKey)
  (value : V2.TState Data ErrorT) (events : list (V2.Event Data ErrorT)).

Lemma isFetchInfo_true value :
  V2.isFetchInfo value = true <->
  V2.isValidating value = Some true
  \/ V2.isLoading value = Some true
  \/ (exists message, V2.error value = Some (V2.NativeError message)).
Proof.
  unfold V2.isFetchInfo, V2.instanceofError, V2.strictlyTrue.
  destruct value as [d [[message|e]|] [[|]|] [[|]|]]; simpl;
    split; intros H; try done; eauto;
    destruct H as [H|[H|[message' H]]]; congruence.
Qed.

(** C2. A [set] whose entry has [isValidating === true] or
    [isLoading === true], or whose [error] is a native [Error] object,
    returns normally and queues no request against the durable store, which
    it leaves as it is, while the map stores the entry and [get] returns
    it. *)
Theorem set_fetch_info_issues_no_put key value p :
  V2.isValidating value = Some true
  \/ V2.isLoading value = Some true
  \/ (exists message, V2.error value = Some (V2.NativeError message)) ->
  V2.invoke cache (V2.CallSet key value) p =
    (V2.RetVoid, V2.withMap (JsMap.set key value (V2.map p)) p)
  /\ V2.pending (V2.set cache key value p).2 = V2.pending p
  /\ V2.store (V2.set cache key value p).2 = V2.store p
  /\ V2.get cache key (V2.set cache key value p).2 = Some value.
Proof.
  intros Hinfo. apply isFetchInfo_true in Hinfo.
  unfold V2.invoke. simpl. rewrite Hinfo. simpl.
  repeat split; try reflexivity. apply get_set_eq.
Qed.

(** C10. When the entry passes the transient-state check and the handler's
    [replace] throws, the caller of [set] sees the exception, yet the map
    already holds the entry: [get] returns it, and nothing was queued
    against the durable store. *)
Theorem set_keeps_entry_when_replace_throws key value p e :
  V2.isFetchInfo value = false ->
  V2.replace handler key value = Throw e ->
  V2.invoke cache (V2.CallSet key value) p =
    (V2.Thrown e, V2.withMap (JsMap.set key value (V2.map p)) p)
  /\ V2.get cache key (V2.invoke cache (V2.CallSet key value) p).2 = Some value
  /\ V2.pending (V2.invoke cache (V2.CallSet key value) p).2 = V2.pending p.
Proof.
  intros Hinfo Hthrow. unfold V2.invoke. simpl. rewrite Hinfo, Hthrow. simpl.
  repeat split; try reflexivity. apply get_set_eq.
Qed.

(** A [set] that persists queues one [put] with [onError] chained on it. *)
Lemma set_issues_put key value storeValue p :
  V2.isFetchInfo value = false ->
  V2.replace handler key value = Ok (Some storeValue) ->
  V2.pending (V2.set cache key value p).2 =
    V2.pending p ++ [(Idb.Put storeValue key, Idb.CatchOnError)].
Proof. intros Hinfo Hrep. simpl. by rewrite Hinfo, Hrep. Qed.

(** In this variant no key is excluded by its shape: [delete] queues a
    request exactly when the key was in the map. *)
Lemma delete_issues_iff_present key p :
  V2.pending (V2.delete cache key p) =
    (if JsMap.has key (V2.map p)
     then V2.pending p ++ [(Idb.Delete key, Idb.CatchOnError)]
     else V2.pending p).
Proof. simpl. by destruct (JsMap.has key (V2.map p)). Qed.

(** The failure of a [put] or of a [delete] reaches [onError], and is
    handled unless [onError] itself throws. *)
Lemma caught_rejection_reported i r e p :
  V2.pending p !! i = Some (r, Idb.CatchOnError) ->
  V2.onErrorCalls (V2.settle i (Idb.Rejected e) p) = V2.onErrorCalls p ++ [e]
  /\ V2.unhandledRejections (V2.settle i (Idb.Rejected e) p) =
       match V2.onErrorCallback p e with
       | Ok _ => V2.unhandledRejections p
       | Throw thrown => V2.unhandledRejections p ++ [thrown]
       end.
Proof. intros Hp. unfold V2.settle. by rewrite Hp. Qed.

(** The failure of a [clear] does not: nothing is chained on its promise. *)
Lemma clear_rejection_unhandled e p :
  V2.pending p = [] ->
  V2.onErrorCalls (V2.settle 0 (Idb.Rejected e) (V2.clear cache p)) =
    V2.onErrorCalls p
  /\ V2.unhandledRejections (V2.settle 0 (Idb.Rejected e) (V2.clear cache p)) =
       V2.unhandledRejections p ++ [e].
Proof. intros Hp. unfold V2.settle. simpl. by rewrite Hp. Qed.

(** A call throws only when the handler's [replace] does. *)
Lemma invoke_thrown c p e :
  (V2.invoke cache c p).1 = V2.Thrown e ->
  exists key value,
    c = V2.CallSet key value /\ V2.replace handler key value = Throw e.
Proof.
  destruct c as [|k|k value|k|]; simpl; try done.
  destruct (V2.isFetchInfo value); [done|].
  destruct (V2.replace handler k value) as [[storeValue|]|e'] eqn:Hrep;
    simpl; try done.
  intros [= ->]. eauto.
Qed.
End V2Persistence.

(** ** The state-record variant: hydration *)

Section V2Hydration.
Context {Data ErrorT Raw : Type}.
Variable config : V2.TConfig Data ErrorT Raw.

Abbreviation handler := (V2.storageHandler config).

Implicit Types (os : Idb.ObjectStore Raw) (m : JsMap.t (V2.TState Data ErrorT))
  (key : TKey) (raw : Raw) (cursor : list (TKey * Raw)).

Lemma elem_of_openCursor key raw os :
  (key, raw) ∈ Idb.openCursor os <-> Idb.records os !! key = Some raw.
Proof.
  unfold Idb.openCursor. rewrite merge_sort_Permutation.
  apply elem_of_map_to_list.
Qed.

Lemma NoDup_openCursor os : NoDup (Idb.openCursor os).*1.
Proof.
  unfold Idb.openCursor. rewrite merge_sort_Permutation.
  apply NoDup_fst_map_to_list.
Qed.

Lemma get_None_has {V : Type} key (mv : JsMap.t V) :
  JsMap.get key mv = None -> JsMap.has key mv = false.
Proof.
  induction mv as [|[k v] rest IH]; simpl; [done|].
  by destruct (String.eqb k key).
Qed.

(** What the cursor loop leaves in the map and in the store, key by key. *)
Lemma drain_spec cursor : forall m os m' os',
  NoDup cursor.*1 ->
  V2.drain config cursor m os = Ok (m', os') ->
  forall key,
    (key ∉ cursor.*1 ->
       JsMap.get key m' = JsMap.get key m
       /\ Idb.records os' !! key = Idb.records os !! key)
    /\ (forall raw, (key, raw) ∈ cursor ->
          (V2.revive handler key raw = Ok None
           /\ JsMap.get key m' = JsMap.get key m
           /\ Idb.records os' !! key = None)
          \/ (exists value, V2.revive handler key raw = Ok (Some value)
              /\ JsMap.get key m' = Some value
              /\ Idb.records os' !! key = Idb.records os !! key)).
Proof.
  induction cursor as [|[k r] rest IH]; intros m os m' os' Hnodup Hdrain key.
  - simpl in Hdrain. injection Hdrain as <- <-.
    split; [done|]. intros raw Hin. by apply elem_of_nil in Hin.
  - simpl in Hnodup. apply NoDup_cons in Hnodup as [Hfresh Hnodup].
    simpl in Hdrain.
    destruct (V2.revive handler k r) as [[value|]|e] eqn:Hrevive;
      simpl in Hdrain; [| |done].
    + (* the record is loaded *)
      destruct (IH _ _ _ _ Hnodup Hdrain key) as [Hout Hin].
      destruct (IH _ _ _ _ Hnodup Hdrain k) as [Houtk _].
      split.
      * intros Hkey. simpl in Hkey. apply not_elem_of_cons in Hkey as [Hne Hkey].
        destruct (Hout Hkey) as [Hget Hrec]. split; [|done].
        rewrite Hget. by apply get_set_ne.
      * intros raw Hraw. apply elem_of_cons in Hraw as [[= -> ->]|Hraw].
        -- right. exists value. destruct (Houtk Hfresh) as [Hget Hrec].
           split; [done|]. split; [|done]. rewrite Hget. apply get_set_eq.
        -- assert (k <> key) as Hne.
           { intros ->. apply Hfresh. apply list_elem_of_fmap.
             by exists (key, raw). }
           destruct (Hin raw Hraw) as [(Hr & Hget & Hrec)|(v & Hr & Hget & Hrec)].
           ++ left. split; [done|]. split; [|done].
              rewrite Hget. by apply get_set_ne.
           ++ right. eauto.
    + (* the record is stale *)
      destruct (IH _ _ _ _ Hnodup Hdrain key) as [Hout Hin].
      destruct (IH _ _ _ _ Hnodup Hdrain k) as [Houtk _].
      split.
      * intros Hkey. simpl in Hkey. apply not_elem_of_cons in Hkey as [Hne Hkey].
        destruct (Hout Hkey) as [Hget Hrec]. split; [done|].
        rewrite Hrec. simpl. by apply lookup_delete_ne.
      * intros raw Hraw. apply elem_of_cons in Hraw as [[= -> ->]|Hraw].
        -- left. destruct (Houtk Hfresh) as [Hget Hrec].
           split; [done|]. split; [done|].
           rewrite Hrec. simpl. apply lookup_delete_eq.
        -- assert (k <> key) as Hne.
           { intros ->. apply Hfresh. apply list_elem_of_fmap.
             by exists (key, raw). }
           destruct (Hin raw Hraw) as [(Hr & Hget & Hrec)|(v & Hr & Hget & Hrec)].
           ++ left. eauto.
           ++ right. exists v. split; [done|]. split; [done|].
              rewrite Hrec. simpl. by apply lookup_delete_ne.
Qed.

(** The loop completes when the handler returns on every record. *)
Lemma drain_total cursor : forall m os,
  (forall key raw, (key, raw) ∈ cursor ->
     exists value, V2.revive handler key raw = Ok value) ->
  exists m' os', V2.drain config cursor m os = Ok (m', os').
Proof.
  induction cursor as [|[k r] rest IH]; intros m os Hrevive; simpl; [eauto|].
  destruct (Hrevive k r) as [value ->]; [apply elem_of_cons; auto|].
  simpl. destruct value as [v|]; apply IH; intros key raw Hin;
    apply Hrevive, elem_of_cons; auto.
Qed.

(** With nothing stale the loop leaves the store as it found it. *)
Lemma drain_nothing_stale cursor : forall m os,
  (forall key raw, (key, raw) ∈ cursor ->
     exists value, V2.revive handler key raw = Ok (Some value)) ->
  exists m', V2.drain config cursor m os = Ok (m', os).
Proof.
  induction cursor as [|[k r] rest IH]; intros m os Hrevive; simpl; [eauto|].
  destruct (Hrevive k r) as [value ->]; [apply elem_of_cons; auto|].
  simpl. apply IH. intros key raw Hin. apply Hrevive, elem_of_cons; auto.
Qed.

(** C3. When the handler's [revive] returns on every record of the store,
    hydration completes, and for every record present at startup: if
    [revive] returned the stale sentinel, the key is absent from the
    hydrated Mirror and the record is gone from the durable store; otherwise
    the revived entry is in the Mirror under the record's key (and the
    record is still in the store).  A key with no record is not in the
    Mirror. *)
Theorem hydrate_prunes_stale_loads_rest os :
  (forall key raw, Idb.records os !! key = Some raw ->
     exists value, V2.revive handler key raw = Ok value) ->
  exists m os',
    V2.hydrate config os = Ok (m, os')
    /\ (forall key raw, Idb.records os !! key = Some raw ->
          match V2.revive handler key raw with
          | Ok None =>
              JsMap.has key m = false /\ JsMap.get key m = None
              /\ Idb.records os' !! key = None
          | Ok (Some value) =>
              JsMap.get key m = Some value
              /\ Idb.records os' !! key = Some raw
          | Throw _ => False
          end)
    /\ (forall key, Idb.records os !! key = None ->
          JsMap.get key m = None /\ Idb.records os' !! key = None).
Proof.
  intros Htotal. unfold V2.hydrate.
  destruct (drain_total (Idb.openCursor os) JsMap.empty os) as (m & os' & Hdrain).
  { intros key raw Hin. apply elem_of_openCursor in Hin. eauto. }
  exists m, os'. split; [done|].
  pose proof (drain_spec _ _ _ _ _ (NoDup_openCursor os) Hdrain) as Hspec.
  split.
  - intros key raw Hrec. destruct (Hspec key) as [_ Hin].
    destruct (Hin raw) as [(Hr & Hget & Hgone)|(value & Hr & Hget & Hkept)].
    + by apply elem_of_openCursor.
    + rewrite Hr. simpl in Hget. split; [by apply get_None_has|done].
    + rewrite Hr. split; [done|]. by rewrite Hkept.
  - intros key Hnone. destruct (Hspec key) as [Hout _].
    destruct Hout as [Hget Hrec].
    + intros Hin. apply list_elem_of_fmap in Hin as [[k raw] [Hk Hin]].
      simpl in Hk. subst k. apply elem_of_openCursor in Hin. congruence.
    + split; [done|]. by rewrite Hrec.
Qed.

(** C8. With a handler that finds no record stale (and returns on every
    record), hydration leaves the durable store as it found it, and a
    second hydration from that store yields a Mirror with the same keys,
    in the same order, and the same value under every key. *)
Theorem hydrate_twice_same_mirror os :
  (forall key raw, Idb.records os !! key = Some raw ->
     exists value, V2.revive handler key raw = Ok (Some value)) ->
  exists m1 os1 m2 os2,
    V2.hydrate config os = Ok (m1, os1)
    /\ os1 = os
    /\ V2.hydrate config os1 = Ok (m2, os2)
    /\ JsMap.keys m1 = JsMap.keys m2
    /\ (forall key, JsMap.get key m1 = JsMap.get key m2).
Proof.
  intros Hfresh. unfold V2.hydrate.
  destruct (drain_nothing_stale (Idb.openCursor os) JsMap.empty os) as [m Hdrain].
  { intros key raw Hin. apply elem_of_openCursor in Hin. eauto. }
  exists m, os, m, os. by rewrite Hdrain.
Qed.
End V2Hydration.

(** ** The state-record variant: opening at a higher version *)

Section V2Upgrade.
Context {Data ErrorT Raw : Type}.
Variable config : V2.TConfig Data ErrorT Raw.

Abbreviation handler := (V2.storageHandler config).

Lemma hydrate_empty (os : Idb.ObjectStore Raw) :
  Idb.records os = ∅ -> V2.hydrate config os = Ok (JsMap.empty, os).
Proof.
  intros Hempty. unfold V2.hydrate, Idb.openCursor.
  by rewrite Hempty, map_to_list_empty.
Qed.

(** The callback drops the old store and leaves an empty one, which the
    hook may extend. *)
Lemma upgrade_recreates (d : Idb.Database Raw) (old : Idb.ObjectStore Raw) :
  1 <= Idb.version d ->
  Idb.version d < V2.requestedVersion config ->
  Idb.objectStores d !! V2.storeName config = Some old ->
  (forall hook, V2.upgradeObjectStore handler = Some hook ->
     exists os, hook Idb.emptyObjectStore (Idb.version d) = Ok os
                /\ Idb.records os = ∅) ->
  exists upgraded os,
    V2.upgrade config d (Idb.version d) = Ok upgraded
    /\ Idb.objectStores upgraded !! V2.storeName config = Some os
    /\ Idb.records os = ∅.
Proof.
  intros Hold Hnew Hstore Hhook. unfold V2.upgrade.
  replace (Nat.eqb (Idb.version d) 0) with false
    by (symmetry; apply Nat.eqb_neq; lia).
  replace (Nat.ltb (Idb.version d) (V2.requestedVersion config)) with true
    by (symmetry; by apply Nat.ltb_lt).
  simpl. unfold Idb.deleteObjectStore. rewrite Hstore. simpl.
  unfold Idb.createObjectStore. simpl. rewrite lookup_delete_eq. simpl.
  destruct (V2.upgradeObjectStore handler) as [hook|] eqn:Hh.
  - destruct (Hhook hook eq_refl) as (os & -> & Hempty). simpl.
    eexists _, os. split; [done|]. simpl. by rewrite lookup_insert_eq.
  - eexists _, Idb.emptyObjectStore. split; [done|]. simpl.
    by rewrite lookup_insert_eq.
Qed.

(** C7, as amended. In the state-record variant, a database populated at
    version [N] (so [N >= 1], with the object store in it) and opened by a
    provider configured with version [N + 1]: the upgrade deletes and
    recreates the object store before hydration, so construction succeeds
    with an empty Mirror and an empty durable store, provided the handler's
    optional hook returns without adding records. *)
Theorem version_upgrade_wipes_store (d : Idb.Database Raw) (N : nat)
    (old : Idb.ObjectStore Raw) :
  Idb.version d = N ->
  1 <= N ->
  Idb.objectStores d !! V2.storeName config = Some old ->
  V2.version config = Some (N + 1) ->
  (forall hook, V2.upgradeObjectStore handler = Some hook ->
     exists os, hook Idb.emptyObjectStore N = Ok os /\ Idb.records os = ∅) ->
  exists p,
    V2.createCacheProvider config d = Ok p
    /\ V2.map p = []
    /\ Idb.records (V2.store p) = ∅
    /\ V2.pending p = [].
Proof.
  intros HN Hpos Hstore Hversion Hhook. subst N.
  assert (V2.requestedVersion config = Idb.version d + 1) as Hreq.
  { unfold V2.requestedVersion. by rewrite Hversion. }
  destruct (upgrade_recreates d old) as (upgraded & os & Hup & Hos & Hempty);
    [done|lia|done|done|].
  unfold V2.createCacheProvider, Idb.openDB.
  replace (Nat.eqb (V2.requestedVersion config) 0) with false
    by (symmetry; apply Nat.eqb_neq; lia).
  replace (Nat.ltb (V2.requestedVersion config) (Idb.version d)) with false
    by (symmetry; apply Nat.ltb_ge; lia).
  replace (Nat.ltb (Idb.version d) (V2.requestedVersion config)) with true
    by (symmetry; apply Nat.ltb_lt; lia).
  rewrite Hup. simpl. unfold Idb.transactionStore. simpl. rewrite Hos. simpl.
  rewrite (hydrate_empty os Hempty). simpl.
  eexists. split; [reflexivity|]. by simpl.
Qed.
End V2Upgrade.

(** ** Where the records of the durable store come from *)

Section IdbFacts.
Context {Raw : Type}.
Variable Q : TKey -> Raw -> Prop.

Lemma perform_recordsSatisfy (r : Idb.Request Raw) (os : Idb.ObjectStore Raw) :
  Idb.recordsSatisfy Q os ->
  Idb.putsSatisfy Q [r] ->
  Idb.recordsSatisfy Q (Idb.perform r os).
Proof.
  intros Hos Hr key raw. destruct r as [value k|k|]; simpl.
  - destruct (decide (k = key)) as [->|Hne].
    + rewrite lookup_insert_eq. intros [= ->]. apply Hr, list_elem_of_singleton.
      done.
    + rewrite lookup_insert_ne by done. apply Hos.
  - destruct (decide (k = key)) as [->|Hne].
    + by rewrite lookup_delete_eq.
    + rewrite lookup_delete_ne by done. apply Hos.
  - by rewrite lookup_empty.
Qed.

Lemma putsSatisfy_mono (requests earlier : list (Idb.Request Raw)) :
  Idb.putsSatisfy Q requests ->
  (forall r, r ∈ earlier -> r ∈ requests) ->
  Idb.putsSatisfy Q earlier.
Proof. intros H Hsub key raw Hin. by apply H, Hsub. Qed.

Lemma putsSatisfy_snoc (r : Idb.Request Raw) requests :
  Idb.putsSatisfy Q requests ->
  Idb.putsSatisfy Q [r] ->
  Idb.putsSatisfy Q (requests ++ [r]).
Proof.
  intros H1 H2 key raw Hin. apply elem_of_app in Hin as [Hin|Hin]; auto.
Qed.

Lemma putsSatisfy_delete key : Idb.putsSatisfy Q [Idb.Delete key].
Proof. intros k raw Hin. by apply list_elem_of_singleton in Hin. Qed.

Lemma putsSatisfy_clear : Idb.putsSatisfy Q [@Idb.Clear Raw].
Proof. intros k raw Hin. by apply list_elem_of_singleton in Hin. Qed.

Lemma putsSatisfy_put key raw : Q key raw -> Idb.putsSatisfy Q [Idb.Put raw key].
Proof.
  intros HQ k r Hin. apply list_elem_of_singleton in Hin. by injection Hin as -> ->.
Qed.
End IdbFacts.

Section V2Durable.
Context {Data ErrorT Raw : Type}.
Variable config : V2.TConfig Data ErrorT Raw.
Variable globalCache : JsMap.t (V2.TState Data ErrorT).
Variable Q : TKey -> Raw -> Prop.

Abbreviation cache := (V2.cacheProvider config globalCache).
Abbreviation handler := (V2.storageHandler config).

Implicit Types (p : V2.Provider Data ErrorT Raw)
  (events : list (V2.Event Data ErrorT)).

Lemma settle_satisfies i o p :
  Idb.recordsSatisfy Q (V2.store p) ->
  Idb.putsSatisfy Q (V2.pending p).*1 ->
  Idb.recordsSatisfy Q (V2.store (V2.settle i o p))
  /\ Idb.putsSatisfy Q (V2.pending (V2.settle i o p)).*1.
Proof.
  intros Hstore Hpending. unfold V2.settle.
  destruct (V2.pending p !! i) as [[r h]|] eqn:Hp; [|done].
  assert (Idb.putsSatisfy Q [r]) as Hr.
  { apply (putsSatisfy_mono Q (V2.pending p).*1); [done|].
    intros x Hx. apply list_elem_of_singleton in Hx as ->.
    apply list_elem_of_fmap. exists (r, h). split; [done|].
    by apply list_elem_of_lookup_2 with i. }
  assert (Idb.putsSatisfy Q (base.delete i (V2.pending p)).*1) as Hrest.
  { apply (putsSatisfy_mono Q (V2.pending p).*1); [done|].
    intros x Hx. rewrite list_fmap_delete in Hx.
    by apply list_elem_of_delete_inv in Hx. }
  destruct o as [|e]; simpl.
  - split; [by apply perform_recordsSatisfy|done].
  - by destruct h.
Qed.

Lemma invoke_satisfies c p :
  (forall key value raw,
     c = V2.CallSet key value ->
     V2.isFetchInfo value = false ->
     V2.replace handler key value = Ok (Some raw) -> Q key raw) ->
  Idb.recordsSatisfy Q (V2.store p) ->
  Idb.putsSatisfy Q (V2.pending p).*1 ->
  Idb.recordsSatisfy Q (V2.store (V2.invoke cache c p).2)
  /\ Idb.putsSatisfy Q (V2.pending (V2.invoke cache c p).2).*1.
Proof.
  intros Hset Hstore Hpending.
  destruct c as [|k|k value|k|]; simpl; try done.
  - destruct (V2.isFetchInfo value) eqn:Hinfo; [done|].
    destruct (V2.replace handler k value) as [[storeValue|]|e] eqn:Hrep;
      simpl; try done.
    split; [done|]. rewrite fmap_app. simpl.
    apply putsSatisfy_snoc; [done|]. apply putsSatisfy_put. eauto.
  - destruct (JsMap.has k (V2.map p)); simpl; [|done].
    split; [done|]. rewrite fmap_app. simpl.
    apply putsSatisfy_snoc; [done|]. apply putsSatisfy_delete.
  - split; [done|]. rewrite fmap_app. simpl.
    apply putsSatisfy_snoc; [done|]. apply putsSatisfy_clear.
Qed.

Lemma run_satisfies events : forall p,
  (forall key value raw,
     V2.Invoke (V2.CallSet key value) ∈ events ->
     V2.isFetchInfo value = false ->
     V2.replace handler key value = Ok (Some raw) -> Q key raw) ->
  Idb.recordsSatisfy Q (V2.store p) ->
  Idb.putsSatisfy Q (V2.pending p).*1 ->
  Idb.recordsSatisfy Q (V2.store (V2.run cache events p).2).
Proof.
  induction events as [|[c|i o] rest IH]; intros p Hset Hstore Hpending;
    [done| |].
  - destruct (invoke_satisfies c p) as [Hstore' Hpending']; [|done|done|].
    { intros key value raw -> Hinfo Hrep.
      apply (Hset key value raw); [apply elem_of_cons; auto|done|done]. }
    change (V2.run cache (V2.Invoke c :: rest) p)
      with (let '(r, p') := V2.invoke cache c p in
            let '(rs, p'') := V2.run cache rest p' in (r :: rs, p'')).
    destruct (V2.invoke cache c p) as [r p'].
    specialize (IH p').
    destruct (V2.run cache rest p') as [rs p'']. simpl in *.
    apply IH; [|done|done].
    intros key value raw Hin. apply Hset, elem_of_cons. auto.
  - destruct (settle_satisfies i o p) as [Hstore' Hpending']; [done|done|].
    change (V2.run cache (V2.Settle i o :: rest) p)
      with (V2.run cache rest (V2.settle i o p)).
    apply IH; [|done|done].
    intros key value raw Hin. apply Hset, elem_of_cons. auto.
Qed.
End V2Durable.

(** ** The plain-value variant *)

Section V1Facts.
Context {TValue Raw : Type}.
Variable config : V1.TConfig TValue Raw.
Variable globalCache : JsMap.t TValue.

Abbreviation cache := (V1.cacheProvider config globalCache).
Abbreviation handler := (V1.storageHandler config).

Implicit Types (p : V1.Provider TValue Raw) (key : TKey)
  (events : list (V1.Event TValue)).

Lemma snoc_neq {A : Type} (l : list A) (x : A) : l ++ [x] <> l.
Proof.
  intros H. apply (f_equal length) in H. rewrite length_app in H. simpl in H. lia.
Qed.

(** C5. [delete key] queues a delete against the durable store if and only
    if the key was in the Mirror and the key is eligible for persistence
    ([isResponseResult]); otherwise it queues nothing.  The key is removed
    from the Mirror in every case, and when the key was not there the whole
    state, Mirror and queue, is left as it was. *)
Theorem delete_issues_iff_present_and_eligible key p :
  (V1.pending (V1.delete cache key p) = V1.pending p ++ [Idb.Delete key]
   <-> JsMap.has key (V1.map p) = true /\ V1.isResponseResult key = true)
  /\ (V1.pending (V1.delete cache key p) = V1.pending p
      <-> ~ (JsMap.has key (V1.map p) = true /\ V1.isResponseResult key = true))
  /\ V1.map (V1.delete cache key p) = JsMap.remove key (V1.map p)
  /\ V1.store (V1.delete cache key p) = V1.store p
  /\ (JsMap.has key (V1.map p) = false -> V1.delete cache key p = p).
Proof.
  assert (V1.pending (V1.delete cache key p) =
          if JsMap.has key (V1.map p) && V1.isResponseResult key
          then V1.pending p ++ [Idb.Delete key] else V1.pending p) as Hq.
  { simpl. by destruct (JsMap.has key (V1.map p) && V1.isResponseResult key). }
  rewrite Hq. split; [|split; [|split; [|split]]].
  - destruct (JsMap.has key (V1.map p)), (V1.isResponseResult key); simpl;
      split; try done; try (by intros []);
      intros H; symmetry in H; by apply snoc_neq in H.
  - destruct (JsMap.has key (V1.map p)), (V1.isResponseResult key); simpl;
      split; try done; try (by intros H []).
    + intros H. by apply snoc_neq in H.
    + intros H. exfalso. by apply H.
  - simpl. by destruct (JsMap.has key (V1.map p) && V1.isResponseResult key).
  - simpl. by destruct (JsMap.has key (V1.map p) && V1.isResponseResult key).
  - intros Hhas. simpl. rewrite Hhas. simpl.
    destruct p as [m s q u]. unfold V1.withMap. simpl in *.
    by rewrite (remove_absent key m Hhas).
Qed.

Lemma createCacheProvider_pending d p :
  V1.createCacheProvider config d = Ok p -> V1.pending p = [].
Proof.
  unfold V1.createCacheProvider.
  destruct (Idb.openDB _ _ d) as [db|e]; simpl; [|done].
  destruct (Idb.transactionStore _ db) as [os|e]; simpl; [|done].
  destruct (V1.hydrate config os) as [m|e]; simpl; [|done].
  by intros [= <-].
Qed.

(** Opening an existing store at a higher version fails in this variant:
    the callback creates the store without dropping the old one. *)
Lemma upgrade_existing_fails (d : Idb.Database Raw) (old : Idb.ObjectStore Raw) :
  1 <= V1.requestedVersion config ->
  Idb.version d < V1.requestedVersion config ->
  Idb.objectStores d !! V1.storeName config = Some old ->
  V1.createCacheProvider config d = Throw ConstraintError.
Proof.
  intros Hpos Hlt Hstore. unfold V1.createCacheProvider, Idb.openDB.
  replace (Nat.eqb (V1.requestedVersion config) 0) with false
    by (symmetry; apply Nat.eqb_neq; lia).
  replace (Nat.ltb (V1.requestedVersion config) (Idb.version d)) with false
    by (symmetry; apply Nat.ltb_ge; lia).
  replace (Nat.ltb (Idb.version d) (V1.requestedVersion config)) with true
    by (symmetry; apply Nat.ltb_lt; lia).
  unfold V1.upgrade, Idb.createObjectStore. by rewrite Hstore.
Qed.

Section Durable.
Variable Q : TKey -> Raw -> Prop.
Hypothesis eligible : forall key raw, V1.isResponseResult key = true -> Q key raw.

Lemma plain_settle_satisfies i o p :
  Idb.recordsSatisfy Q (V1.store p) ->
  Idb.putsSatisfy Q (V1.pending p) ->
  Idb.recordsSatisfy Q (V1.store (V1.settle i o p))
  /\ Idb.putsSatisfy Q (V1.pending (V1.settle i o p)).
Proof.
  intros Hstore Hpending. unfold V1.settle.
  destruct (V1.pending p !! i) as [r|] eqn:Hp; [|done].
  assert (Idb.putsSatisfy Q [r]) as Hr.
  { apply (putsSatisfy_mono Q (V1.pending p)); [done|].
    intros x Hx. apply list_elem_of_singleton in Hx as ->.
    by apply list_elem_of_lookup_2 with i. }
  assert (Idb.putsSatisfy Q (base.delete i (V1.pending p))) as Hrest.
  { apply (putsSatisfy_mono Q (V1.pending p)); [done|].
    intros x Hx. by apply list_elem_of_delete_inv in Hx. }
  destruct o as [|e]; simpl; [|done].
  split; [by apply perform_recordsSatisfy|done].
Qed.

Lemma plain_invoke_satisfies c p :
  Idb.recordsSatisfy Q (V1.store p) ->
  Idb.putsSatisfy Q (V1.pending p) ->
  Idb.recordsSatisfy Q (V1.store (V1.invoke cache c p).2)
  /\ Idb.putsSatisfy Q (V1.pending (V1.invoke cache c p).2).
Proof.
  intros Hstore Hpending.
  destruct c as [k|k value|k]; simpl; try done.
  - destruct (V1.isResponseResult k) eqn:Hkey; [|done].
    destruct (V1.replace handler value) as [storeValue|e]; simpl; [|done].
    split; [done|].
    apply putsSatisfy_snoc; [done|]. apply putsSatisfy_put. auto.
  - destruct (JsMap.has k (V1.map p) && V1.isResponseResult k); simpl; [|done].
    split; [done|]. apply putsSatisfy_snoc; [done|]. apply putsSatisfy_delete.
Qed.

Lemma plain_run_satisfies events : forall p,
  Idb.recordsSatisfy Q (V1.store p) ->
  Idb.putsSatisfy Q (V1.pending p) ->
  Idb.recordsSatisfy Q (V1.store (V1.run cache events p).2).
Proof.
  induction events as [|[c|i o] rest IH]; intros p Hstore Hpending; [done| |].
  - destruct (plain_invoke_satisfies c p) as [Hstore' Hpending']; [done|done|].
    change (V1.run cache (V1.Invoke c :: rest) p)
      with (let '(r, p') := V1.invoke cache c p in
            let '(rs, p'') := V1.run cache rest p' in (r :: rs, p'')).
    destruct (V1.invoke cache c p) as [r p'].
    specialize (IH p').
    destruct (V1.run cache rest p') as [rs p'']. simpl in *. by apply IH.
  - destruct (plain_settle_satisfies i o p) as [Hstore' Hpending']; [done|done|].
    change (V1.run cache (V1.Settle i o :: rest) p)
      with (V1.run cache rest (V1.settle i o p)).
    by apply IH.
Qed.
End Durable.
End V1Facts.

(** ** Both variants *)

Lemma created_nothing_pending {Data ErrorT Raw : Type}
    (config : V2.TConfig Data ErrorT Raw) d p :
  V2.createCacheProvider config d = Ok p -> V2.pending p = [].
Proof.
  unfold V2.createCacheProvider.
  destruct (Idb.openDB _ _ d) as [db|e]; simpl; [|done].
  destruct (Idb.transactionStore _ db) as [os|e]; simpl; [|done].
  destruct (V2.hydrate config os) as [[m os']|e]; simpl; [|done].
  by intros [= <-].
Qed.

(** C6, as amended. After hydration and any sequence of calls and
    settlements, fulfilled or rejected, every record of the durable store
    either was there when hydration completed or, in the state-record
    variant, is the handler's encoding of an entry that a [set] of the run
    stored under that key and that carried no in-flight flag and no native
    error; in the plain-value variant, it is under a key that does not
    start with the reserved prefix. *)
Theorem durable_records_origin :
  (forall (Data ErrorT Raw : Type) (config : V2.TConfig Data ErrorT Raw)
          (globalCache : JsMap.t (V2.TState Data ErrorT))
          (d : Idb.Database Raw) (p : V2.Provider Data ErrorT Raw)
          (events : list (V2.Event Data ErrorT)) (key : TKey) (raw : Raw),
     V2.createCacheProvider config d = Ok p ->
     Idb.records
       (V2.store (V2.run (V2.cacheProvider config globalCache) events p).2)
       !! key = Some raw ->
     Idb.records (V2.store p) !! key = Some raw
     \/ Spec.encodedBy (V2.storageHandler config) events key raw)
  /\ (forall (TValue Raw : Type) (config : V1.TConfig TValue Raw)
             (globalCache : JsMap.t TValue)
             (d : Idb.Database Raw) (p : V1.Provider TValue Raw)
             (events : list (V1.Event TValue)) (key : TKey) (raw : Raw),
        V1.createCacheProvider config d = Ok p ->
        Idb.records
          (V1.store (V1.run (V1.cacheProvider config globalCache) events p).2)
          !! key = Some raw ->
        Idb.records (V1.store p) !! key = Some raw
        \/ V1.isResponseResult key = true).
Proof.
  split.
  - intros Data ErrorT Raw config globalCache d p events key raw Hcreated.
    apply (run_satisfies config globalCache
             (fun key raw =>
                Idb.records (V2.store p) !! key = Some raw
                \/ Spec.encodedBy (V2.storageHandler config) events key raw)).
    + intros k value r Hin Hinfo Hrep. right. by exists value.
    + intros k r Hr. by left.
    + rewrite (created_nothing_pending config d p Hcreated).
      intros k r Hin. by apply elem_of_nil in Hin.
  - intros TValue Raw config globalCache d p events key raw Hcreated.
    apply (plain_run_satisfies config globalCache
             (fun key raw =>
                Idb.records (V1.store p) !! key = Some raw
                \/ V1.isResponseResult key = true)).
    + intros k r Hk. by right.
    + intros k r Hr. by left.
    + rewrite (createCacheProvider_pending config d p Hcreated).
      intros k r Hin. by apply elem_of_nil in Hin.
Qed.

(** C9. The cache does not depend on the fallback cache it is given: the
    factory returns the same methods for any two of them, so every run of
    [keys], [get], [set], [delete] and [clear] calls returns the same
    values and ends in the same state. *)
Theorem globalCache_is_ignored :
  (forall (Data ErrorT Raw : Type) (config : V2.TConfig Data ErrorT Raw)
          (globalCache1 globalCache2 : JsMap.t (V2.TState Data ErrorT)),
     V2.cacheProvider config globalCache1 = V2.cacheProvider config globalCache2
     /\ forall events p,
          V2.run (V2.cacheProvider config globalCache1) events p =
          V2.run (V2.cacheProvider config globalCache2) events p)
  /\ (forall (TValue Raw : Type) (config : V1.TConfig TValue Raw)
             (globalCache1 globalCache2 : JsMap.t TValue),
        V1.cacheProvider config globalCache1 = V1.cacheProvider config globalCache2
        /\ forall events p,
             V1.run (V1.cacheProvider config globalCache1) events p =
             V1.run (V1.cacheProvider config globalCache2) events p).
Proof. split; intros; split; reflexivity. Qed.

(** ** Concrete runs *)

(** C4. A [clear] whose durable write is rejected: the call has returned
    normally, but the failure never reaches [onError] and is left as an
    unhandled rejection, whereas the failures of the [put] and of the
    [delete] of the same run are both reported to [onError]. *)
Theorem clear_rejection_bypasses_onError :
  let cache :=
    V2.cacheProvider (Examples.config Examples.simpleStorageHandler None) [] in
  let outcome :=
    V2.run cache
      [V2.Invoke (V2.CallSet "user:1" (Examples.loaded "a"));
       V2.Settle 0 (Idb.Rejected DataCloneError);
       V2.Invoke (V2.CallDelete "user:1");
       V2.Settle 0 (Idb.Rejected NotFoundError);
       V2.Invoke V2.CallClear;
       V2.Settle 0 (Idb.Rejected QuotaExceededError)]
      Examples.fresh in
  outcome.1 = [V2.RetVoid; V2.RetVoid; V2.RetVoid]
  /\ V2.pending outcome.2 = []
  /\ V2.onErrorCalls outcome.2 = [DataCloneError; NotFoundError]
  /\ V2.unhandledRejections outcome.2 = [QuotaExceededError].
Proof. vm_compute. repeat split; reflexivity. Qed.

(** C6, the claim as stated fails: after hydration of a database never
    opened, a persisted [set], its write settled, and a [set] of an
    in-flight state on the same key, no write is pending, the Mirror's
    entry for the key is transient, and the durable store still holds the
    record of the first [set]. *)
Lemma transient_entry_over_durable_record :
  let config := Examples.config Examples.simpleStorageHandler None in
  let cache := V2.cacheProvider config [] in
  let final :=
    (V2.run cache
       [V2.Invoke (V2.CallSet "user:2" (Examples.loaded "b"));
        V2.Settle 0 Idb.Fulfilled;
        V2.Invoke (V2.CallSet "user:2" Examples.validating)]
       Examples.fresh).2 in
  V2.createCacheProvider config Examples.blank = Ok Examples.fresh
  /\ V2.pending final = []
  /\ V2.get cache "user:2" final = Some Examples.validating
  /\ Spec.isTransient Examples.validating = true
  /\ Idb.records (V2.store final) !! "user:2" = Some (Examples.loaded "b")
  /\ Idb.records (V2.store final) !! "user:2" <> None.
Proof. vm_compute. repeat split; try reflexivity. discriminate. Qed.

Lemma set_fetch_info_issues_no_put_witness :
  let cache :=
    V2.cacheProvider (Examples.config Examples.simpleStorageHandler None) [] in
  V2.invoke cache (V2.CallSet "user:2" Examples.validating) Examples.fresh =
    (V2.RetVoid,
     V2.withMap (JsMap.set "user:2" Examples.validating (V2.map Examples.fresh))
       Examples.fresh)
  /\ V2.pending (V2.set cache "user:2" Examples.validating Examples.fresh).2 =
       V2.pending Examples.fresh
  /\ V2.store (V2.set cache "user:2" Examples.validating Examples.fresh).2 =
       V2.store Examples.fresh
  /\ V2.get cache "user:2"
       (V2.set cache "user:2" Examples.validating Examples.fresh).2 =
       Some Examples.validating.
Proof.
  apply (set_fetch_info_issues_no_put
           (Examples.config Examples.simpleStorageHandler None) []
           "user:2" Examples.validating Examples.fresh).
  left. reflexivity.
Defined.

Lemma set_keeps_entry_when_replace_throws_witness :
  let cache := V2.cacheProvider (Examples.config Examples.throwingHandler None) [] in
  V2.invoke cache (V2.CallSet "user:1" (Examples.loaded "a")) Examples.fresh =
    (V2.Thrown (HandlerError "replace"),
     V2.withMap (JsMap.set "user:1" (Examples.loaded "a") (V2.map Examples.fresh))
       Examples.fresh)
  /\ V2.get cache "user:1"
       (V2.invoke cache (V2.CallSet "user:1" (Examples.loaded "a"))
          Examples.fresh).2 = Some (Examples.loaded "a")
  /\ V2.pending
       (V2.invoke cache (V2.CallSet "user:1" (Examples.loaded "a"))
          Examples.fresh).2 = V2.pending Examples.fresh.
Proof.
  apply (set_keeps_entry_when_replace_throws
           (Examples.config Examples.throwingHandler None) []
           "user:1" (Examples.loaded "a") Examples.fresh
           (HandlerError "replace")); reflexivity.
Defined.

Lemma hydrate_prunes_stale_loads_rest_witness :
  let config := Examples.timestampConfig 100 50 None in
  exists m os',
    V2.hydrate config Examples.stamped = Ok (m, os')
    /\ (forall key raw, Idb.records Examples.stamped !! key = Some raw ->
          match V2.revive (V2.storageHandler config) key raw with
          | Ok None =>
              JsMap.has key m = false /\ JsMap.get key m = None
              /\ Idb.records os' !! key = None
          | Ok (Some value) =>
              JsMap.get key m = Some value
              /\ Idb.records os' !! key = Some raw
          | Throw _ => False
          end)
    /\ (forall key, Idb.records Examples.stamped !! key = None ->
          JsMap.get key m = None /\ Idb.records os' !! key = None).
Proof.
  apply (hydrate_prunes_stale_loads_rest
           (Examples.timestampConfig 100 50 None) Examples.stamped).
  intros key raw _. simpl.
  destruct (Nat.ltb _ _); eexists; reflexivity.
Defined.

Lemma hydrate_twice_same_mirror_witness :
  let config := Examples.config Examples.simpleStorageHandler None in
  exists m1 os1 m2 os2,
    V2.hydrate config Examples.responses = Ok (m1, os1)
    /\ os1 = Examples.responses
    /\ V2.hydrate config os1 = Ok (m2, os2)
    /\ JsMap.keys m1 = JsMap.keys m2
    /\ (forall key, JsMap.get key m1 = JsMap.get key m2).
Proof.
  apply (hydrate_twice_same_mirror
           (Examples.config Examples.simpleStorageHandler None)
           Examples.responses).
  intros key raw _. exists raw. reflexivity.
Defined.

Lemma version_upgrade_wipes_store_witness :
  exists p,
    V2.createCacheProvider (Examples.timestampConfig 100 50 (Some 2))
      Examples.stampedDatabase = Ok p
    /\ V2.map p = []
    /\ Idb.records (V2.store p) = ∅
    /\ V2.pending p = [].
Proof.
  apply (version_upgrade_wipes_store
           (Examples.timestampConfig 100 50 (Some 2))
           Examples.stampedDatabase 1 Examples.stamped).
  - reflexivity.
  - lia.
  - vm_compute. reflexivity.
  - reflexivity.
  - intros hook [= <-]. eexists. split; reflexivity.
Defined.

Lemma durable_records_origin_witness :
  let config := Examples.config Examples.simpleStorageHandler None in
  let events :=
    [V2.Invoke (V2.CallSet "user:2" (Examples.loaded "b"));
     V2.Settle 0 Idb.Fulfilled;
     V2.Invoke (V2.CallSet "user:2" Examples.validating)] in
  (Idb.records (V2.store Examples.fresh) !! "user:2" = Some (Examples.loaded "b")
   \/ Spec.encodedBy (V2.storageHandler config) events "user:2"
        (Examples.loaded "b"))
  /\ (Idb.records (V1.store Examples.plainFresh) !! "user:1" = Some "a"
      \/ V1.isResponseResult "user:1" = true).
Proof.
  split.
  - apply (proj1 durable_records_origin _ _ _
             (Examples.config Examples.simpleStorageHandler None) []
             Examples.blank Examples.fresh).
    + vm_compute. reflexivity.
    + vm_compute. reflexivity.
  - apply (proj2 durable_records_origin _ _
             (Examples.plainConfig None) []
             {| Idb.version := 0; Idb.objectStores := ∅ |} Examples.plainFresh
             [V1.Invoke (V1.CallSet "$req$user:1" "pending");
              V1.Invoke (V1.CallSet "user:1" "a");
              V1.Settle 0 Idb.Fulfilled]).
    + vm_compute. reflexivity.
    + vm_compute. reflexivity.
Defined.

(** The scenarios of the specification, on the default handler. *)

(** A persisted [set] is read back at once, and after a restart at the
    same version the Mirror hydrates with it. *)
Example scenario_set_then_reopen :
  let config := Examples.config Examples.simpleStorageHandler None in
  let cache := V2.cacheProvider config [] in
  let outcome :=
    V2.run cache
      [V2.Invoke (V2.CallSet "user:1" (Examples.loaded "a"));
       V2.Invoke (V2.CallGet "user:1");
       V2.Settle 0 Idb.Fulfilled]
      Examples.fresh in
  outcome.1 = [V2.RetVoid; V2.RetGet (Some (Examples.loaded "a"))]
  /\ (p ← V2.createCacheProvider config
             {| Idb.version := 1;
                Idb.objectStores := {[ "responses" := V2.store outcome.2 ]} |};
      Ok (V2.map p))
     = Ok [("user:1", Examples.loaded "a")].
Proof. vm_compute. split; reflexivity. Qed.

(** Of an in-flight [set] followed by a loaded one, only the second is
    queued for the durable store. *)
Example scenario_validating_then_loaded :
  let cache :=
    V2.cacheProvider (Examples.config Examples.simpleStorageHandler None) [] in
  let final :=
    (V2.run cache
       [V2.Invoke (V2.CallSet "user:2" Examples.validating);
        V2.Invoke (V2.CallSet "user:2" (Examples.loaded "b"))]
       Examples.fresh).2 in
  V2.get cache "user:2" final = Some (Examples.loaded "b")
  /\ V2.pending final =
       [(Idb.Put (Examples.loaded "b") "user:2", Idb.CatchOnError)].
Proof. vm_compute. split; reflexivity. Qed.

(** A [delete] of a key never set does nothing. *)
Example scenario_delete_unknown_key :
  V2.delete
    (V2.cacheProvider (Examples.config Examples.simpleStorageHandler None) [])
    "user:3" Examples.fresh = Examples.fresh.
Proof. reflexivity. Qed.

(** A native error is kept in the Mirror and not queued. *)
Example scenario_native_error :
  let cache :=
    V2.cacheProvider (Examples.config Examples.simpleStorageHandler None) [] in
  let final := (V2.set cache "user:4" (Examples.failed "offline") Examples.fresh).2 in
  V2.get cache "user:4" final = Some (Examples.failed "offline")
  /\ V2.pending final = [].
Proof. vm_compute. split; reflexivity. Qed.

(** The plain-value variant keeps a reserved key out of the durable store
    and persists the others. *)
Example scenario_reserved_prefix :
  let cache := V1.cacheProvider (Examples.plainConfig None) [] in
  let final :=
    (V1.run cache
       [V1.Invoke (V1.CallSet "$req$user:1" "pending");
        V1.Invoke (V1.CallSet "user:1" "a");
        V1.Invoke (V1.CallDelete "$req$user:1")]
       Examples.plainFresh).2 in
  V1.isResponseResult "$req$user:1" = false
  /\ V1.isResponseResult "user:1" = true
  /\ V1.map final = [("user:1", "a")]
  /\ V1.pending final = [Idb.Put "a" "user:1"].
Proof. vm_compute. repeat split; reflexivity. Qed.

(** Stale records are pruned while the others are loaded in key order. *)
Example scenario_stale_pruned :
  match V2.hydrate (Examples.timestampConfig 100 50 None) Examples.stamped with
  | Ok (m, os) =>
      m = [("new", Examples.loaded "b")]
      /\ Idb.records os !! "old" = None
      /\ Idb.records os !! "new" = Some (90, Examples.loaded "b")
  | Throw _ => False
  end.
Proof. vm_compute. repeat split; reflexivity. Qed.

(** * Further properties of the code *)

(** ** Keys of the in-memory map *)

Section JsMapKeys.
Context {V : Type}.
Implicit Types (m : JsMap.t V) (key k : TKey) (value : V).

Lemma elem_of_keys key m : key ∈ JsMap.keys m <-> is_Some (JsMap.get key m).
Proof.
  induction m as [|[k v] rest IH]; simpl.
  - split; [intros H; by apply elem_of_nil in H|intros [x Hx]; done].
  - rewrite elem_of_cons, IH. destruct (String.eqb k key) eqn:E.
    + apply String.eqb_eq in E. subst. split; eauto.
    + apply String.eqb_neq in E. split; [intros [->|H]; done|auto].
Qed.

Lemma not_elem_of_keys_set key k value m :
  k <> key -> key ∉ JsMap.keys m -> key ∉ JsMap.keys (JsMap.set k value m).
Proof.
  intros Hne Hout Hin. apply Hout.
  apply elem_of_keys in Hin. apply elem_of_keys. by rewrite get_set_ne in Hin.
Qed.

Lemma NoDup_keys_set key value m :
  NoDup (JsMap.keys m) -> NoDup (JsMap.keys (JsMap.set key value m)).
Proof.
  induction m as [|[k v] rest IH]; simpl; intros Hnodup.
  - apply NoDup_singleton.
  - apply NoDup_cons in Hnodup as [Hfresh Hnodup].
    destruct (String.eqb k key) eqn:E; simpl.
    + by apply NoDup_cons.
    + apply String.eqb_neq in E. apply NoDup_cons. split; [|auto].
      apply not_elem_of_keys_set; [congruence|done].
Qed.

Lemma NoDup_keys_remove key m :
  NoDup (JsMap.keys m) -> NoDup (JsMap.keys (JsMap.remove key m)).
Proof.
  unfold JsMap.remove.
  induction m as [|[k v] rest IH]; simpl; intros Hnodup; [done|].
  apply NoDup_cons in Hnodup as [Hfresh Hnodup].
  destruct (negb (String.eqb k key)); simpl; [|auto].
  apply NoDup_cons. split; [|auto].
  intros Hin. apply Hfresh. apply elem_of_keys in Hin. apply elem_of_keys.
  change (List.filter (fun e => negb (String.eqb e.1 key)) rest)
    with (JsMap.remove key rest) in Hin.
  rewrite get_remove in Hin. by destruct (String.eqb key k).
Qed.
End JsMapKeys.

(** ** The state-record variant: construction *)

Section V2Startup.
Context {Data ErrorT Raw : Type}.
Variable config : V2.TConfig Data ErrorT Raw.

Abbreviation handler := (V2.storageHandler config).

Implicit Types (os : Idb.ObjectStore Raw) (m : JsMap.t (V2.TState Data ErrorT))
  (key : TKey) (raw : Raw) (d : Idb.Database Raw).

(** What hydration leaves under each key. *)
Lemma hydrate_lookup os m os' key :
  V2.hydrate config os = Ok (m, os') ->
  match Idb.records os !! key with
  | None => JsMap.get key m = None /\ Idb.records os' !! key = None
  | Some raw =>
      (V2.revive handler key raw = Ok None
       /\ JsMap.get key m = None /\ Idb.records os' !! key = None)
      \/ (exists value, V2.revive handler key raw = Ok (Some value)
          /\ JsMap.get key m = Some value
          /\ Idb.records os' !! key = Some raw)
  end.
Proof.
  intros Hdrain. unfold V2.hydrate in Hdrain.
  destruct (drain_spec config _ _ _ _ _ (NoDup_openCursor os) Hdrain key)
    as [Hout Hin].
  destruct (Idb.records os !! key) as [raw|] eqn:Hrec.
  - destruct (Hin raw) as [(Hr & Hget & Hgone)|(value & Hr & Hget & Hkept)].
    + by apply elem_of_openCursor.
    + left. by simpl in Hget.
    + right. exists value. by rewrite Hkept.
  - destruct Hout as [Hget Hkept].
    + intros Hin'. apply list_elem_of_fmap in Hin' as [[k raw] [Hk Hin']].
      simpl in Hk. subst k. apply elem_of_openCursor in Hin'. congruence.
    + split; [done|]. by rewrite Hkept.
Qed.

Lemma drain_indexNames cursor : forall m os m' os',
  V2.drain config cursor m os = Ok (m', os') ->
  Idb.indexNames os' = Idb.indexNames os.
Proof.
  induction cursor as [|[k r] rest IH]; intros m os m' os' Hdrain; simpl in Hdrain.
  - by injection Hdrain as <- <-.
  - destruct (V2.revive handler k r) as [[value|]|e]; simpl in Hdrain; [| |done].
    + by apply IH in Hdrain.
    + by apply IH in Hdrain.
Qed.

Lemma drain_NoDup_keys cursor : forall m os m' os',
  NoDup (JsMap.keys m) ->
  V2.drain config cursor m os = Ok (m', os') ->
  NoDup (JsMap.keys m').
Proof.
  induction cursor as [|[k r] rest IH]; intros m os m' os' Hnodup Hdrain;
    simpl in Hdrain.
  - by injection Hdrain as <- <-.
  - destruct (V2.revive handler k r) as [[value|]|e]; simpl in Hdrain; [| |done].
    + apply IH in Hdrain; [done|]. by apply NoDup_keys_set.
    + by apply IH in Hdrain.
Qed.

(** The loop fails exactly when the handler throws on some record. *)
Lemma drain_throw cursor : forall m os e,
  V2.drain config cursor m os = Throw e ->
  exists key raw, (key, raw) ∈ cursor /\ V2.revive handler key raw = Throw e.
Proof.
  induction cursor as [|[k r] rest IH]; intros m os e Hdrain; simpl in Hdrain;
    [done|].
  destruct (V2.revive handler k r) as [[value|]|e'] eqn:Hrevive; simpl in Hdrain.
  - apply IH in Hdrain as (key & raw & Hin & Hthrow).
    exists key, raw. split; [apply elem_of_cons; auto|done].
  - apply IH in Hdrain as (key & raw & Hin & Hthrow).
    exists key, raw. split; [apply elem_of_cons; auto|done].
  - injection Hdrain as ->. exists k, r. split; [apply elem_of_cons; auto|done].
Qed.

Lemma drain_ok_no_throw cursor : forall m os m' os' key raw,
  V2.drain config cursor m os = Ok (m', os') ->
  (key, raw) ∈ cursor ->
  exists value, V2.revive handler key raw = Ok value.
Proof.
  induction cursor as [|[k r] rest IH]; intros m os m' os' key raw Hdrain Hin;
    [by apply elem_of_nil in Hin|].
  simpl in Hdrain.
  destruct (V2.revive handler k r) as [[value|]|e] eqn:Hrevive;
    simpl in Hdrain; [| |done];
    (apply elem_of_cons in Hin as [[= -> ->]|Hin]; [eauto|by eapply IH]).
Qed.
End V2Startup.

Section V2StartupProperties.
Context {Data ErrorT Raw : Type}.
Variable config : V2.TConfig Data ErrorT Raw.

Abbreviation handler := (V2.storageHandler config).

Implicit Types (os : Idb.ObjectStore Raw) (m : JsMap.t (V2.TState Data ErrorT))
  (key : TKey) (raw : Raw) (d : Idb.Database Raw).

(** X1. Hydration fails exactly when the handler's [revive] throws on some
    record of the store, and the exception it fails with is one that
    [revive] threw on a record. *)
Theorem hydrate_fails_iff_revive_throws os :
  (forall e, V2.hydrate config os = Throw e ->
     exists key raw,
       Idb.records os !! key = Some raw /\ V2.revive handler key raw = Throw e)
  /\ ((exists key raw e,
         Idb.records os !! key = Some raw /\ V2.revive handler key raw = Throw e)
      -> exists e, V2.hydrate config os = Throw e).
Proof.
  split.
  - intros e Hfail. apply drain_throw in Hfail as (key & raw & Hin & Hthrow).
    exists key, raw. split; [by apply elem_of_openCursor|done].
  - intros (key & raw & e & Hrec & Hthrow).
    destruct (V2.hydrate config os) as [[m os']|e'] eqn:Hhyd; [|eauto].
    unfold V2.hydrate in Hhyd.
    destruct (drain_ok_no_throw config _ _ _ _ _ key raw Hhyd) as [value Hok].
    + by apply elem_of_openCursor.
    + congruence.
Qed.

(** X2. When hydration completes, the Mirror and the durable store hold the
    same keys: every record left in the store is a record that was there,
    that [revive] accepted, and whose revived entry the Mirror holds under
    its key.  The indexes of the store are untouched and no key is listed
    twice. *)
Theorem hydrated_mirror_matches_store os m os' :
  V2.hydrate config os = Ok (m, os') ->
  (forall key, is_Some (JsMap.get key m) <-> is_Some (Idb.records os' !! key))
  /\ (forall key raw, Idb.records os' !! key = Some raw ->
        Idb.records os !! key = Some raw
        /\ exists value, V2.revive handler key raw = Ok (Some value)
                         /\ JsMap.get key m = Some value)
  /\ Idb.indexNames os' = Idb.indexNames os
  /\ NoDup (JsMap.keys m).
Proof.
  intros Hhyd. split; [|split; [|split]].
  - intros key. pose proof (hydrate_lookup config os m os' key Hhyd) as H.
    destruct (Idb.records os !! key) as [raw|].
    + destruct H as [(_ & -> & ->)|(value & _ & -> & ->)]; [|by split; eauto].
      split; intros [x Hx]; done.
    + destruct H as [-> ->]. split; intros [x Hx]; done.
  - intros key raw Hrec.
    pose proof (hydrate_lookup config os m os' key Hhyd) as H.
    destruct (Idb.records os !! key) as [raw0|].
    + destruct H as [(_ & _ & Hgone)|(value & Hr & Hget & Hkept)]; [congruence|].
      assert (raw0 = raw) as -> by congruence. eauto.
    + destruct H as [_ Hgone]. congruence.
  - by apply (drain_indexNames config) in Hhyd.
  - apply (drain_NoDup_keys config) in Hhyd; [done|]. apply NoDup_nil_2.
Qed.


(** X4. Opening a database that is already at the requested version and
    holds the object store runs neither the upgrade callback nor the
    handler's hook and drops nothing: construction is the hydration of the
    store as it is, and fails only if hydration does. *)
Theorem reopen_same_version_hydrates_store d os :
  Idb.version d = V2.requestedVersion config ->
  1 <= V2.requestedVersion config ->
  Idb.objectStores d !! V2.storeName config = Some os ->
  V2.createCacheProvider config d =
    match V2.hydrate config os with
    | Ok (m, os') =>
        Ok {| V2.map := m; V2.store := os'; V2.pending := [];
              V2.onErrorCallback := V2.configuredOnError config;
              V2.onErrorCalls := []; V2.unhandledRejections := [] |}
    | Throw e => Throw e
    end.
Proof.
  intros Hversion Hpos Hstore. unfold V2.createCacheProvider, Idb.openDB.
  replace (Nat.eqb (V2.requestedVersion config) 0) with false
    by (symmetry; apply Nat.eqb_neq; lia).
  replace (Nat.ltb (V2.requestedVersion config) (Idb.version d)) with false
    by (symmetry; apply Nat.ltb_ge; lia).
  replace (Nat.ltb (Idb.version d) (V2.requestedVersion config)) with false
    by (symmetry; apply Nat.ltb_ge; lia).
  simpl. unfold Idb.transactionStore. rewrite Hstore. simpl.
  by destruct (V2.hydrate config os) as [[m os']|e].
Qed.

(** X5. Opening a database for the first time (stored version 0, no object
    store): nothing is deleted, the object store is created, and
    construction succeeds with an empty Mirror over an empty store,
    provided the handler's optional hook returns without adding records. *)
Theorem first_open_creates_empty_store d :
  Idb.version d = 0 ->
  Idb.objectStores d !! V2.storeName config = None ->
  1 <= V2.requestedVersion config ->
  (forall hook, V2.upgradeObjectStore handler = Some hook ->
     exists os, hook Idb.emptyObjectStore 0 = Ok os /\ Idb.records os = ∅) ->
  exists p,
    V2.createCacheProvider config d = Ok p
    /\ V2.map p = []
    /\ Idb.records (V2.store p) = ∅
    /\ V2.pending p = []
    /\ (V2.upgradeObjectStore handler = None ->
        V2.store p = Idb.emptyObjectStore).
Proof.
  intros Hversion Hstore Hpos Hhook.
  unfold V2.createCacheProvider, Idb.openDB. rewrite Hversion.
  replace (Nat.eqb (V2.requestedVersion config) 0) with false
    by (symmetry; apply Nat.eqb_neq; lia).
  replace (Nat.ltb (V2.requestedVersion config) 0) with false
    by (symmetry; apply Nat.ltb_ge; lia).
  replace (Nat.ltb 0 (V2.requestedVersion config)) with true
    by (symmetry; apply Nat.ltb_lt; lia).
  unfold V2.upgrade. simpl.
  unfold Idb.createObjectStore. rewrite Hstore. simpl.
  destruct (V2.upgradeObjectStore handler) as [hook|] eqn:Hh.
  - destruct (Hhook hook eq_refl) as (os & -> & Hempty). simpl.
    unfold Idb.transactionStore. simpl. rewrite lookup_insert_eq. simpl.
    rewrite (hydrate_empty config os Hempty). simpl.
    eexists. split; [reflexivity|]. simpl. by repeat split.
  - simpl. unfold Idb.transactionStore. simpl. rewrite lookup_insert_eq. simpl.
    rewrite (hydrate_empty config Idb.emptyObjectStore eq_refl). simpl.
    eexists. split; [reflexivity|]. simpl. by repeat split.
Qed.

(** X6. Opening an existing database (stored version at least 1, at most
    the requested one) that has no object store of the configured name
    fails: at a higher requested version the upgrade callback deletes the
    store unguarded, at the same version the hydration transaction cannot
    be opened.  No provider is produced. *)
Theorem missing_store_fails d :
  1 <= Idb.version d ->
  Idb.version d <= V2.requestedVersion config ->
  Idb.objectStores d !! V2.storeName config = None ->
  exists e, V2.createCacheProvider config d = Throw e.
Proof.
  intros Hold Hle Hstore. exists NotFoundError.
  unfold V2.createCacheProvider, Idb.openDB.
  replace (Nat.eqb (V2.requestedVersion config) 0) with false
    by (symmetry; apply Nat.eqb_neq; lia).
  replace (Nat.ltb (V2.requestedVersion config) (Idb.version d)) with false
    by (symmetry; apply Nat.ltb_ge; lia).
  destruct (Nat.ltb (Idb.version d) (V2.requestedVersion config)) eqn:Hlt.
  - unfold V2.upgrade. rewrite Hlt.
    replace (Nat.eqb (Idb.version d) 0) with false
      by (symmetry; apply Nat.eqb_neq; lia).
    simpl. unfold Idb.deleteObjectStore. by rewrite Hstore.
  - simpl. unfold Idb.transactionStore. by rewrite Hstore.
Qed.
End V2StartupProperties.

(** ** The state-record variant: runs of the cache *)

Section V2Runs.
Context {Data ErrorT Raw : Type}.
Variable config : V2.TConfig Data ErrorT Raw.
Variable globalCache : JsMap.t (V2.TState Data ErrorT).

Abbreviation cache := (V2.cacheProvider config globalCache).
Abbreviation handler := (V2.storageHandler config).

Implicit Types (p q : V2.Provider Data ErrorT Raw) (key : TKey)
  (value : V2.TState Data ErrorT) (events : list (V2.Event Data ErrorT))
  (ev : V2.Event Data ErrorT).

Lemma created_hydrated d p :
  V2.createCacheProvider config d = Ok p ->
  (exists os, V2.hydrate config os = Ok (V2.map p, V2.store p))
  /\ V2.pending p = []
  /\ V2.onErrorCalls p = []
  /\ V2.unhandledRejections p = [].
Proof.
  unfold V2.createCacheProvider.
  destruct (Idb.openDB _ _ d) as [db|e]; simpl; [|done].
  destruct (Idb.transactionStore _ db) as [os|e]; simpl; [|done].
  destruct (V2.hydrate config os) as [[m os']|e] eqn:Hhyd; simpl; [|done].
  intros [= <-]. simpl. eauto.
Qed.

Lemma run_cons ev events p :
  V2.run cache (ev :: events) p =
  ((V2.run cache [ev] p).1 ++ (V2.run cache events (V2.run cache [ev] p).2).1,
   (V2.run cache events (V2.run cache [ev] p).2).2).
Proof.
  destruct ev as [c|i o]; simpl.
  - destruct (V2.invoke cache c p) as [r p']. simpl.
    by destruct (V2.run cache events p') as [rs p''].
  - by destruct (V2.run cache events (V2.settle i o p)) as [rs p''].
Qed.

(** A property kept by every event of a run is kept by the run. *)
Lemma run_preserves (I : V2.Provider Data ErrorT Raw -> Prop) events : forall p,
  (forall ev q, ev ∈ events -> I q -> I (V2.run cache [ev] q).2) ->
  I p -> I (V2.run cache events p).2.
Proof.
  induction events as [|ev rest IH]; intros p Hstep Hp; [done|].
  rewrite run_cons. simpl. apply IH.
  - intros ev' q Hin. apply Hstep, elem_of_cons. auto.
  - apply Hstep; [apply elem_of_cons; auto|done].
Qed.

Lemma step_invoke c p : (V2.run cache [V2.Invoke c] p).2 = (V2.invoke cache c p).2.
Proof. simpl. by destruct (V2.invoke cache c p). Qed.

Lemma invoke_NoDup_keys c p :
  NoDup (JsMap.keys (V2.map p)) ->
  NoDup (JsMap.keys (V2.map (V2.invoke cache c p).2)).
Proof.
  intros Hnodup. destruct c as [|k|k value|k|]; try done.
  - replace (V2.map (V2.invoke cache (V2.CallSet k value) p).2)
      with (JsMap.set k value (V2.map p)); [by apply NoDup_keys_set|].
    simpl. destruct (V2.isFetchInfo value); [done|].
    by destruct (V2.replace handler k value) as [[storeValue|]|e].
  - replace (V2.map (V2.invoke cache (V2.CallDelete k) p).2)
      with (JsMap.remove k (V2.map p)); [by apply NoDup_keys_remove|].
    simpl. by destruct (JsMap.has k (V2.map p)).
  - apply NoDup_nil_2.
Qed.

(** X7. From construction on and through any run, [keys()] lists each key
    once, and it lists exactly the keys for which [get] returns an
    entry. *)
Theorem keys_distinct_and_match_get d p events :
  V2.createCacheProvider config d = Ok p ->
  NoDup (V2.keys cache (V2.run cache events p).2)
  /\ (forall key,
        key ∈ V2.keys cache (V2.run cache events p).2
        <-> is_Some (V2.get cache key (V2.run cache events p).2)).
Proof.
  intros Hcreated. split; [|intros key; apply elem_of_keys].
  apply (run_preserves (fun q => NoDup (JsMap.keys (V2.map q)))).
  - intros [c|i o] q _ Hq.
    + rewrite step_invoke. by apply invoke_NoDup_keys.
    + change (V2.run cache [V2.Settle i o] q).2 with (V2.settle i o q).
      by rewrite settle_map.
  - apply created_hydrated in Hcreated as [[os Hhyd] _].
    apply (drain_NoDup_keys config) in Hhyd; [done|]. apply NoDup_nil_2.
Qed.

(** X8. No failure of the durable store reaches a caller: in any run, with
    the writes settling in any way, a call throws only if it is a [set] of
    an entry that passed the [isFetchInfo] check and the handler's
    [replace] threw that exception on it. *)
Theorem calls_throw_only_what_replace_throws events : forall p e,
  V2.Thrown e ∈ (V2.run cache events p).1 ->
  exists key value,
    V2.Invoke (V2.CallSet key value) ∈ events
    /\ V2.isFetchInfo value = false
    /\ V2.replace handler key value = Throw e.
Proof.
  induction events as [|ev rest IH]; intros p e Hin;
    [by apply elem_of_nil in Hin|].
  rewrite run_cons in Hin. simpl in Hin. apply elem_of_app in Hin as [Hin|Hin].
  - destruct ev as [c|i o]; [|by apply elem_of_nil in Hin].
    assert ((V2.invoke cache c p).1 = V2.Thrown e) as Hthrown.
    { simpl in Hin. destruct (V2.invoke cache c p) as [r p']. simpl in *.
      apply list_elem_of_singleton in Hin. done. }
    destruct c as [|k|k value|k|]; simpl in Hthrown; try done.
    destruct (V2.isFetchInfo value) eqn:Hinfo; [done|].
    destruct (V2.replace handler k value) as [[storeValue|]|e'] eqn:Hrep;
      simpl in Hthrown; try done.
    injection Hthrown as ->. exists k, value.
    split; [apply elem_of_cons; auto|done].
  - apply IH in Hin as (key & value & Hin & Hrest).
    exists key, value. split; [apply elem_of_cons; auto|done].
Qed.

(** X9. As long as [clear] is not called, a rejection goes unhandled only
    when [onError] itself throws: every request queued by [set] and
    [delete] has [onError] chained on it, so however the writes settle,
    each new unhandled rejection is an exception that [onError] threw when
    called with a failure, and with an [onError] that always returns (the
    default does) the unhandled rejections do not grow. *)
Theorem no_unhandled_rejection_without_clear events p :
  Forall (fun request => request.2 = Idb.CatchOnError) (V2.pending p) ->
  V2.Invoke V2.CallClear ∉ events ->
  (forall e, e ∈ V2.unhandledRejections (V2.run cache events p).2 ->
     e ∈ V2.unhandledRejections p
     \/ exists failure, V2.onErrorCallback p failure = Throw e)
  /\ ((forall failure, V2.onErrorCallback p failure = Ok ()) ->
      V2.unhandledRejections (V2.run cache events p).2 =
        V2.unhandledRejections p)
  /\ Forall (fun request => request.2 = Idb.CatchOnError)
       (V2.pending (V2.run cache events p).2).
Proof.
  intros Hpending Hclear.
  assert (V2.onErrorCallback (V2.run cache events p).2 = V2.onErrorCallback p
          /\ (forall e, e ∈ V2.unhandledRejections (V2.run cache events p).2 ->
                e ∈ V2.unhandledRejections p
                \/ exists failure, V2.onErrorCallback p failure = Throw e)
          /\ ((forall failure, V2.onErrorCallback p failure = Ok ()) ->
              V2.unhandledRejections (V2.run cache events p).2 =
                V2.unhandledRejections p)
          /\ Forall (fun request => request.2 = Idb.CatchOnError)
               (V2.pending (V2.run cache events p).2)) as [_ H]; [|done].
  apply (run_preserves
           (fun q =>
              V2.onErrorCallback q = V2.onErrorCallback p
              /\ (forall e, e ∈ V2.unhandledRejections q ->
                    e ∈ V2.unhandledRejections p
                    \/ exists failure, V2.onErrorCallback p failure = Throw e)
              /\ ((forall failure, V2.onErrorCallback p failure = Ok ()) ->
                  V2.unhandledRejections q = V2.unhandledRejections p)
              /\ Forall (fun request => request.2 = Idb.CatchOnError)
                   (V2.pending q))); [|by auto].
  intros [c|i o] q Hin (Hcb & Horigin & Hsame & Hq).
  - rewrite step_invoke. destruct c as [|k|k value|k|]; try done.
    + simpl. destruct (V2.isFetchInfo value); [done|].
      destruct (V2.replace handler k value) as [[storeValue|]|e]; simpl;
        try done.
      repeat split; try done. apply Forall_app. split; [done|].
      by apply Forall_singleton.
    + simpl. destruct (JsMap.has k (V2.map q)); simpl; [|done].
      repeat split; try done. apply Forall_app. split; [done|].
      by apply Forall_singleton.
  - change (V2.run cache [V2.Settle i o] q).2 with (V2.settle i o q).
    unfold V2.settle.
    destruct (V2.pending q !! i) as [[r h]|] eqn:Hi; [|done].
    assert (h = Idb.CatchOnError) as ->.
    { apply (Forall_lookup_1 _ _ _ _ Hq Hi). }
    assert (Forall (fun request => request.2 = Idb.CatchOnError)
              (base.delete i (V2.pending q))) as Hrest.
    { apply Forall_forall. intros x Hx. apply list_elem_of_delete_inv in Hx.
      by apply (proj1 (Forall_forall _ _) Hq). }
    destruct o as [|failure]; simpl; [done|].
    split; [done|]. split; [|split; [|done]].
    + intros e He.
      destruct (V2.onErrorCallback q failure) as [u|thrown] eqn:Hcall; [auto|].
      apply elem_of_app in He as [He|He]; [auto|].
      apply list_elem_of_singleton in He as ->.
      right. exists failure. by rewrite <- Hcb.
    + intros Hreturns. rewrite Hcb, Hreturns. auto.
Qed.
End V2Runs.

(** ** The state-record variant: what a reload finds *)

Section V2Reload.
Context {Data ErrorT Raw : Type}.
Variable config : V2.TConfig Data ErrorT Raw.
Variable globalCache : JsMap.t (V2.TState Data ErrorT).

Abbreviation cache := (V2.cacheProvider config globalCache).
Abbreviation handler := (V2.storageHandler config).

Implicit Types (p q : V2.Provider Data ErrorT Raw) (key : TKey)
  (value : V2.TState Data ErrorT) (raw : Raw)
  (events : list (V2.Event Data ErrorT)).

Lemma hydrate_total (os : Idb.ObjectStore Raw) :
  (forall key raw, Idb.records os !! key = Some raw ->
     exists entry, V2.revive handler key raw = Ok entry) ->
  exists m os', V2.hydrate config os = Ok (m, os').
Proof.
  intros Htotal. apply drain_total. intros key raw Hin.
  apply elem_of_openCursor in Hin. eauto.
Qed.

(** X10. A persisted [set] survives a reload: when the entry passes the
    [isFetchInfo] check, [replace] encodes it, [revive] decodes that record
    back to the entry, and the queued [put] is fulfilled, the durable store
    holds the record under the key and a hydration of that store puts the
    entry back in the Mirror. *)
Theorem set_survives_reload key value raw p :
  V2.pending p = [] ->
  V2.isFetchInfo value = false ->
  V2.replace handler key value = Ok (Some raw) ->
  V2.revive handler key raw = Ok (Some value) ->
  (forall k r, Idb.records (V2.store p) !! k = Some r ->
     exists entry, V2.revive handler k r = Ok entry) ->
  let p' := V2.settle 0 Idb.Fulfilled (V2.set cache key value p).2 in
  V2.pending p' = []
  /\ Idb.records (V2.store p') !! key = Some raw
  /\ exists m os',
       V2.hydrate config (V2.store p') = Ok (m, os')
       /\ JsMap.get key m = Some value.
Proof.
  intros Hpending Hinfo Hrep Hrev Htotal.
  assert (V2.settle 0 Idb.Fulfilled (V2.set cache key value p).2 =
          {| V2.map := JsMap.set key value (V2.map p);
             V2.store := Idb.perform (Idb.Put raw key) (V2.store p);
             V2.pending := [];
             V2.onErrorCallback := V2.onErrorCallback p;
             V2.onErrorCalls := V2.onErrorCalls p;
             V2.unhandledRejections := V2.unhandledRejections p |}) as ->.
  { simpl. rewrite Hinfo, Hrep. unfold V2.settle. simpl. by rewrite Hpending. }
  simpl. split; [done|]. split; [apply lookup_insert_eq|].
  destruct (hydrate_total (Idb.perform (Idb.Put raw key) (V2.store p)))
    as (m & os' & Hhyd).
  { intros k r. simpl. destruct (decide (key = k)) as [->|Hne].
    - rewrite lookup_insert_eq. intros [= <-]. eauto.
    - rewrite lookup_insert_ne by done. apply Htotal. }
  exists m, os'. split; [done|].
  pose proof (hydrate_lookup config _ m os' key Hhyd) as H.
  simpl in H. rewrite lookup_insert_eq in H.
  destruct H as [(Hr & _)|(v & Hr & Hget & _)]; congruence.
Qed.

(** X11. A [delete] of a key the Mirror holds, once its request is
    fulfilled, removes the record from the durable store, and a hydration
    of that store does not bring the key back. *)
Theorem delete_survives_reload key p :
  V2.pending p = [] ->
  JsMap.has key (V2.map p) = true ->
  (forall k r, Idb.records (V2.store p) !! k = Some r ->
     exists entry, V2.revive handler k r = Ok entry) ->
  let p' := V2.settle 0 Idb.Fulfilled (V2.delete cache key p) in
  V2.get cache key p' = None
  /\ Idb.records (V2.store p') !! key = None
  /\ exists m os',
       V2.hydrate config (V2.store p') = Ok (m, os')
       /\ JsMap.get key m = None.
Proof.
  intros Hpending Hhas Htotal.
  assert (V2.settle 0 Idb.Fulfilled (V2.delete cache key p) =
          {| V2.map := JsMap.remove key (V2.map p);
             V2.store := Idb.perform (Idb.Delete key) (V2.store p);
             V2.pending := [];
             V2.onErrorCallback := V2.onErrorCallback p;
             V2.onErrorCalls := V2.onErrorCalls p;
             V2.unhandledRejections := V2.unhandledRejections p |}) as ->.
  { simpl. rewrite Hhas. unfold V2.settle. simpl. by rewrite Hpending. }
  simpl. split; [|split; [apply lookup_delete_eq|]].
  - rewrite get_remove. by rewrite String.eqb_refl.
  - destruct (hydrate_total (Idb.perform (Idb.Delete key) (V2.store p)))
      as (m & os' & Hhyd).
    { intros k r. simpl. destruct (decide (key = k)) as [->|Hne].
      - by rewrite lookup_delete_eq.
      - rewrite lookup_delete_ne by done. apply Htotal. }
    exists m, os'. split; [done|].
    pose proof (hydrate_lookup config _ m os' key Hhyd) as H.
    simpl in H. rewrite lookup_delete_eq in H. by destruct H.
Qed.

(** X12. [clear] empties the Mirror at once and always queues a clear of
    the durable store, even when the Mirror was already empty; once that
    request is fulfilled the store has no record and a hydration of it
    yields an empty Mirror. *)
Theorem clear_survives_reload p :
  V2.pending p = [] ->
  let p' := V2.settle 0 Idb.Fulfilled (V2.clear cache p) in
  V2.pending (V2.clear cache p) = [(Idb.Clear, Idb.NoCatch)]
  /\ V2.keys cache p' = []
  /\ (forall key, V2.get cache key p' = None)
  /\ Idb.records (V2.store p') = ∅
  /\ V2.hydrate config (V2.store p') = Ok ([], V2.store p').
Proof.
  intros Hpending. simpl. rewrite Hpending. simpl.
  unfold V2.settle. simpl. rewrite Hpending. simpl.
  repeat split; try done; by apply (hydrate_empty config).
Qed.

(** X13. When the handler's [replace] returns the do-not-persist sentinel,
    [set] returns normally, the Mirror holds the entry and [get] returns
    it, and nothing is queued against the durable store, which is left as
    it is. *)
Theorem set_not_persisted_when_replace_declines key value p :
  V2.isFetchInfo value = false ->
  V2.replace handler key value = Ok None ->
  V2.invoke cache (V2.CallSet key value) p =
    (V2.RetVoid, V2.withMap (JsMap.set key value (V2.map p)) p)
  /\ V2.get cache key (V2.set cache key value p).2 = Some value
  /\ V2.pending (V2.set cache key value p).2 = V2.pending p
  /\ V2.store (V2.set cache key value p).2 = V2.store p.
Proof.
  intros Hinfo Hrep. unfold V2.invoke. simpl. rewrite Hinfo, Hrep. simpl.
  repeat split; try reflexivity. apply get_set_eq.
Qed.

(** X14. In this variant [delete] looks at nothing but the Mirror: it
    queues a delete, with [onError] chained, exactly when the key was in
    the Mirror, whatever the key's shape and whether or not its entry was
    ever persisted; afterwards [get] finds nothing under the key, and when
    the key was absent the whole state is left as it was. *)
Theorem delete_queues_iff_key_present key p :
  (V2.pending (V2.delete cache key p) =
     V2.pending p ++ [(Idb.Delete key, Idb.CatchOnError)]
   <-> JsMap.has key (V2.map p) = true)
  /\ (V2.pending (V2.delete cache key p) = V2.pending p
      <-> JsMap.has key (V2.map p) = false)
  /\ V2.get cache key (V2.delete cache key p) = None
  /\ V2.store (V2.delete cache key p) = V2.store p
  /\ (JsMap.has key (V2.map p) = false -> V2.delete cache key p = p).
Proof.
  simpl. destruct (JsMap.has key (V2.map p)) eqn:Hhas; simpl.
  - split; [done|]. split.
    + split; [|done]. intros H. by apply snoc_neq in H.
    + split; [|done]. rewrite get_remove. by rewrite String.eqb_refl.
  - split.
    + split; [|done]. intros H. symmetry in H. by apply snoc_neq in H.
    + split; [done|]. split.
      * rewrite get_remove. by rewrite String.eqb_refl.
      * split; [done|]. intros _. destruct p as [m s q f c u].
        unfold V2.withMap. simpl in *. by rewrite (remove_absent key m Hhas).
Qed.
End V2Reload.

(** ** The state-record variant: the store stays within the Mirror *)

Section V2Projection.
Context {Data ErrorT Raw : Type}.
Variable config : V2.TConfig Data ErrorT Raw.
Variable globalCache : JsMap.t (V2.TState Data ErrorT).

Abbreviation cache := (V2.cacheProvider config globalCache).
Abbreviation handler := (V2.storageHandler config).

Implicit Types (p q : V2.Provider Data ErrorT Raw) (key : TKey)
  (events : list (V2.Event Data ErrorT)).

#[local] Arguments Durable.flush : simpl never.

Lemma flush_snoc (requests : list (Idb.Request Raw)) r (os : Idb.ObjectStore Raw) :
  Durable.flush (requests ++ [r]) os = Idb.perform r (Durable.flush requests os).
Proof. unfold Durable.flush. by rewrite fold_left_app. Qed.

Lemma invoke_within c q :
  (forall key,
     is_Some (Idb.records (Durable.flush (V2.pending q).*1 (V2.store q)) !! key) ->
     is_Some (JsMap.get key (V2.map q))) ->
  forall key,
    is_Some (Idb.records
               (Durable.flush (V2.pending (V2.invoke cache c q).2).*1
                  (V2.store (V2.invoke cache c q).2)) !! key) ->
    is_Some (JsMap.get key (V2.map (V2.invoke cache c q).2)).
Proof.
  intros Hq key. destruct c as [|k|k value|k|]; try apply Hq.
  - (* set *)
    assert (is_Some (Idb.records
                       (Durable.flush (V2.pending q).*1 (V2.store q)) !! key) ->
            is_Some (JsMap.get key (JsMap.set k value (V2.map q)))) as Hold.
    { intros H. rewrite get_set. destruct (String.eqb k key); [done|auto]. }
    simpl. destruct (V2.isFetchInfo value); [done|].
    destruct (V2.replace handler k value) as [[storeValue|]|e]; simpl; try done.
    rewrite fmap_app. simpl. rewrite flush_snoc. simpl.
    destruct (decide (k = key)) as [->|Hne].
    + intros _. by rewrite get_set_eq.
    + by rewrite lookup_insert_ne.
  - (* delete *)
    simpl. destruct (JsMap.has k (V2.map q)) eqn:Hhas; simpl.
    + rewrite fmap_app. simpl. rewrite flush_snoc. simpl.
      destruct (decide (k = key)) as [->|Hne].
      * rewrite lookup_delete_eq. by intros [x Hx].
      * rewrite lookup_delete_ne by done. intros H. apply Hq in H.
        rewrite get_remove. apply String.eqb_neq in Hne. by rewrite Hne.
    + intros H. apply Hq in H. rewrite get_remove.
      destruct (String.eqb k key) eqn:E; [|done].
      apply String.eqb_eq in E. subst k.
      apply has_false_get in Hhas. rewrite Hhas in H. by destruct H.
  - (* clear *)
    simpl. rewrite fmap_app. simpl. rewrite flush_snoc. simpl. rewrite lookup_empty.
    by intros [x Hx].
Qed.

(** X15. When every durable write is fulfilled, in the order of issue, the
    durable store never holds a key the Mirror lacks: from construction on
    and at every point of such a run, the keys of the store as it will be
    once the pending writes have landed are keys of the Mirror; in
    particular, with nothing pending, every key of the store is one for
    which [get] returns an entry. *)
Theorem durable_keys_within_mirror d p events :
  V2.createCacheProvider config d = Ok p ->
  (forall i o, V2.Settle i o ∈ events -> i = 0 /\ o = Idb.Fulfilled) ->
  (forall key,
     is_Some (Idb.records
                (Durable.flush (V2.pending (V2.run cache events p).2).*1
                   (V2.store (V2.run cache events p).2)) !! key) ->
     is_Some (V2.get cache key (V2.run cache events p).2))
  /\ (V2.pending (V2.run cache events p).2 = [] ->
      forall key,
        is_Some (Idb.records (V2.store (V2.run cache events p).2) !! key) ->
        is_Some (V2.get cache key (V2.run cache events p).2)).
Proof.
  intros Hcreated Hsettle.
  assert (forall key,
            is_Some (Idb.records
                       (Durable.flush (V2.pending (V2.run cache events p).2).*1
                          (V2.store (V2.run cache events p).2)) !! key) ->
            is_Some (JsMap.get key (V2.map (V2.run cache events p).2))) as Hrun.
  { apply (run_preserves config globalCache
             (fun q => forall key,
                is_Some (Idb.records
                           (Durable.flush (V2.pending q).*1 (V2.store q)) !! key) ->
                is_Some (JsMap.get key (V2.map q)))).
    - intros [c|i o] q Hin Hq.
      + rewrite step_invoke. by apply invoke_within.
      + destruct (Hsettle i o Hin) as [-> ->].
        change (V2.run cache [V2.Settle 0 Idb.Fulfilled] q).2
          with (V2.settle 0 Idb.Fulfilled q).
        unfold V2.settle.
        destruct (V2.pending q) as [|[r h] rest] eqn:Hpending; simpl.
        * by rewrite Hpending.
        * intros key H. by apply Hq.
    - apply created_hydrated in Hcreated as ([os Hhyd] & -> & _). simpl.
      intros key [raw Hrec].
      change (Durable.flush [] (V2.store p)) with (V2.store p) in Hrec.
      pose proof (hydrate_lookup config os _ _ key Hhyd) as H.
      destruct (Idb.records os !! key) as [raw0|].
      + destruct H as [(_ & _ & Hgone)|(value & _ & -> & _)]; [congruence|done].
      + destruct H as [_ Hgone]. congruence. }
  split; [done|].
  intros Hpending key H. apply Hrun. by rewrite Hpending.
Qed.
End V2Projection.

(** ** The plain-value variant: further properties *)

Section V1Properties.
Context {TValue Raw : Type}.
Variable config : V1.TConfig TValue Raw.
Variable globalCache : JsMap.t TValue.

Abbreviation cache := (V1.cacheProvider config globalCache).
Abbreviation handler := (V1.storageHandler config).

Implicit Types (p : V1.Provider TValue Raw) (key : TKey) (value : TValue)
  (events : list (V1.Event TValue)) (os : Idb.ObjectStore Raw)
  (d : Idb.Database Raw).

Lemma plain_settle_map i o p : V1.map (V1.settle i o p) = V1.map p.
Proof.
  unfold V1.settle. destruct (V1.pending p !! i) as [r|]; [|done].
  by destruct o.
Qed.

Lemma plain_set_map key value p :
  V1.map (V1.set cache key value p).2 = JsMap.set key value (V1.map p).
Proof.
  simpl. destruct (V1.isResponseResult key); [|done].
  by destruct (V1.replace handler value) as [storeValue|e].
Qed.

Lemma plain_invoke_get key c p :
  V1.get cache key (V1.invoke cache c p).2 =
  default (V1.get cache key p) (SpecPlain.affects key c).
Proof.
  destruct c as [k|k value|k]; [reflexivity| |].
  - assert (V1.map (V1.invoke cache (V1.CallSet k value) p).2 =
            JsMap.set k value (V1.map p)) as Hmap.
    { pose proof (plain_set_map k value p) as H. simpl in *.
      destruct (V1.isResponseResult k); [|done].
      by destruct (V1.replace handler value). }
    change (V1.get cache key (V1.invoke cache (V1.CallSet k value) p).2)
      with (JsMap.get key (V1.map (V1.invoke cache (V1.CallSet k value) p).2)).
    rewrite Hmap, get_set. simpl. by destruct (String.eqb k key).
  - assert (V1.map (V1.invoke cache (V1.CallDelete k) p).2 =
            JsMap.remove k (V1.map p)) as Hmap.
    { simpl. by destruct (JsMap.has k (V1.map p) && V1.isResponseResult k). }
    change (V1.get cache key (V1.invoke cache (V1.CallDelete k) p).2)
      with (JsMap.get key (V1.map (V1.invoke cache (V1.CallDelete k) p).2)).
    rewrite Hmap, get_remove. simpl. by destruct (String.eqb k key).
Qed.

Lemma plain_run_app events1 events2 p :
  (V1.run cache (events1 ++ events2) p).2 =
  (V1.run cache events2 (V1.run cache events1 p).2).2.
Proof.
  revert p. induction events1 as [|[c|i o] rest IH]; intros p; simpl; [done| |].
  - destruct (V1.invoke cache c p) as [r p'] eqn:Hinv.
    specialize (IH p').
    destruct (V1.run cache (rest ++ events2) p') as [rs p''].
    destruct (V1.run cache rest p') as [rs1 p1]. simpl in *. done.
  - apply IH.
Qed.

Lemma plain_step_invoke c p :
  (V1.run cache [V1.Invoke c] p).2 = (V1.invoke cache c p).2.
Proof. simpl. by destruct (V1.invoke cache c p). Qed.

Lemma plain_impliedValue_snoc key events e before :
  SpecPlain.impliedValue key (events ++ [e]) before =
  match e with
  | V1.Invoke c =>
      default (SpecPlain.impliedValue key events before)
        (SpecPlain.affects key c)
  | V1.Settle _ _ => SpecPlain.impliedValue key events before
  end.
Proof.
  unfold SpecPlain.impliedValue. rewrite rev_app_distr. simpl.
  destruct e as [c|i o]; [|done]. by destruct (SpecPlain.affects key c).
Qed.

(** X16. In the plain-value variant too, after any run of [get], [set] and
    [delete] calls interleaved with the durable writes settling in any
    order, fulfilled or rejected, [get key] returns the value of the last
    [set] on the key, nothing after a [delete] of it (also of a key with
    the reserved prefix), and what it returned before if no call touched
    the key. *)
Theorem plain_get_follows_last_call events p key :
  V1.get cache key (V1.run cache events p).2 =
  SpecPlain.impliedValue key events (V1.get cache key p).
Proof.
  induction events as [|e events IH] using rev_ind; [done|].
  rewrite plain_run_app, plain_impliedValue_snoc.
  destruct e as [c|i o].
  - rewrite plain_step_invoke, plain_invoke_get, IH. done.
  - change (V1.run cache [V1.Settle i o] (V1.run cache events p).2).2
      with (V1.settle i o (V1.run cache events p).2).
    change (V1.get cache key (V1.settle i o (V1.run cache events p).2))
      with (JsMap.get key (V1.map (V1.settle i o (V1.run cache events p).2))).
    rewrite plain_settle_map. apply IH.
Qed.

(** X17. A [set] under a key with the reserved prefix never reaches the
    durable store and never consults the handler: whatever [replace] would
    do, throw included, the call returns normally, nothing is queued, and
    [get] returns the value. *)
Theorem plain_set_reserved_key_stays_in_memory key value p :
  V1.isResponseResult key = false ->
  V1.invoke cache (V1.CallSet key value) p =
    (V1.RetVoid, V1.withMap (JsMap.set key value (V1.map p)) p)
  /\ V1.get cache key (V1.set cache key value p).2 = Some value
  /\ V1.pending (V1.set cache key value p).2 = V1.pending p
  /\ V1.store (V1.set cache key value p).2 = V1.store p.
Proof.
  intros Hkey. unfold V1.invoke. simpl. rewrite Hkey. simpl.
  repeat split; try reflexivity. apply get_set_eq.
Qed.

(** X18. A [set] under an eligible key queues a [put] of whatever
    [replace] returns, with nothing chained on it; when [replace] throws
    the caller sees the exception, nothing is queued, and the Mirror holds
    the value all the same. *)
Theorem plain_set_eligible_key key value p :
  V1.isResponseResult key = true ->
  V1.get cache key (V1.set cache key value p).2 = Some value
  /\ match V1.replace handler value with
     | Ok storeValue =>
         V1.invoke cache (V1.CallSet key value) p =
           (V1.RetVoid,
            V1.issue (Idb.Put storeValue key)
              (V1.withMap (JsMap.set key value (V1.map p)) p))
     | Throw e =>
         V1.invoke cache (V1.CallSet key value) p =
           (V1.Thrown e, V1.withMap (JsMap.set key value (V1.map p)) p)
     end.
Proof.
  intros Hkey. split.
  - change (V1.get cache key (V1.set cache key value p).2)
      with (JsMap.get key (V1.map (V1.set cache key value p).2)).
    rewrite plain_set_map. apply get_set_eq.
  - unfold V1.invoke. simpl. rewrite Hkey.
    by destruct (V1.replace handler value).
Qed.

Lemma plain_drain_spec cursor : forall (m m' : JsMap.t TValue),
  NoDup cursor.*1 ->
  V1.drain config cursor m = Ok m' ->
  forall key,
    (key ∉ cursor.*1 -> JsMap.get key m' = JsMap.get key m)
    /\ (forall raw, (key, raw) ∈ cursor ->
          exists value, V1.revive handler raw = Ok value
                        /\ JsMap.get key m' = Some value).
Proof.
  induction cursor as [|[k r] rest IH]; intros m m' Hnodup Hdrain key.
  - simpl in Hdrain. injection Hdrain as <-.
    split; [done|]. intros raw Hin. by apply elem_of_nil in Hin.
  - simpl in Hnodup. apply NoDup_cons in Hnodup as [Hfresh Hnodup].
    simpl in Hdrain.
    destruct (V1.revive handler r) as [value|e] eqn:Hrevive;
      simpl in Hdrain; [|done].
    destruct (IH _ _ Hnodup Hdrain key) as [Hout Hin].
    destruct (IH _ _ Hnodup Hdrain k) as [Houtk _].
    split.
    + intros Hkey. simpl in Hkey. apply not_elem_of_cons in Hkey as [Hne Hkey].
      rewrite (Hout Hkey). by apply get_set_ne.
    + intros raw Hraw. apply elem_of_cons in Hraw as [[= -> ->]|Hraw].
      * exists value. split; [done|]. rewrite (Houtk Hfresh). apply get_set_eq.
      * by apply Hin.
Qed.

Lemma plain_drain_total cursor : forall (m : JsMap.t TValue),
  (forall key raw, (key, raw) ∈ cursor ->
     exists value, V1.revive handler raw = Ok value) ->
  exists m', V1.drain config cursor m = Ok m'.
Proof.
  induction cursor as [|[k r] rest IH]; intros m Hrevive; simpl; [eauto|].
  destruct (Hrevive k r) as [value ->]; [apply elem_of_cons; auto|].
  simpl. apply IH. intros key raw Hin. apply (Hrevive key), elem_of_cons. auto.
Qed.

(** X19. Reopening at the stored version in the plain-value variant: when
    [revive] returns on every record, construction succeeds, the durable
    store is left exactly as it was, and the Mirror holds the revived value
    of every record under its key, reserved keys included, and nothing
    else; nothing is pruned. *)
Theorem plain_reopen_loads_every_record d os :
  Idb.version d = V1.requestedVersion config ->
  1 <= V1.requestedVersion config ->
  Idb.objectStores d !! V1.storeName config = Some os ->
  (forall key raw, Idb.records os !! key = Some raw ->
     exists value, V1.revive handler raw = Ok value) ->
  exists p,
    V1.createCacheProvider config d = Ok p
    /\ V1.store p = os
    /\ V1.pending p = []
    /\ (forall key raw, Idb.records os !! key = Some raw ->
          exists value, V1.revive handler raw = Ok value
                        /\ V1.get cache key p = Some value)
    /\ (forall key, Idb.records os !! key = None -> V1.get cache key p = None).
Proof.
  intros Hversion Hpos Hstore Htotal.
  destruct (plain_drain_total (Idb.openCursor os) JsMap.empty) as [m Hdrain].
  { intros key raw Hin. apply elem_of_openCursor in Hin. eauto. }
  pose proof (plain_drain_spec _ _ _ (NoDup_openCursor os) Hdrain) as Hspec.
  unfold V1.createCacheProvider, Idb.openDB.
  replace (Nat.eqb (V1.requestedVersion config) 0) with false
    by (symmetry; apply Nat.eqb_neq; lia).
  replace (Nat.ltb (V1.requestedVersion config) (Idb.version d)) with false
    by (symmetry; apply Nat.ltb_ge; lia).
  replace (Nat.ltb (Idb.version d) (V1.requestedVersion config)) with false
    by (symmetry; apply Nat.ltb_ge; lia).
  simpl. unfold Idb.transactionStore. rewrite Hstore. simpl.
  unfold V1.hydrate. rewrite Hdrain. simpl.
  eexists. split; [reflexivity|]. simpl. repeat split.
  - intros key raw Hrec. destruct (Hspec key) as [_ Hin].
    apply Hin. by apply elem_of_openCursor.
  - intros key Hnone. destruct (Hspec key) as [Hout _]. rewrite Hout; [done|].
    intros Hin. apply list_elem_of_fmap in Hin as [[k raw] [Hk Hin]].
    simpl in Hk. subst k. apply elem_of_openCursor in Hin. congruence.
Qed.

(** X20. The first opening in the plain-value variant (stored version 0,
    no object store) creates the store and succeeds with an empty Mirror,
    provided the handler's optional hook returns without adding records. *)
Theorem plain_first_open_creates_empty_store d :
  Idb.version d = 0 ->
  Idb.objectStores d !! V1.storeName config = None ->
  1 <= V1.requestedVersion config ->
  (forall hook, V1.upgradeObjectStore handler = Some hook ->
     exists os, hook Idb.emptyObjectStore 0 = Ok os /\ Idb.records os = ∅) ->
  exists p,
    V1.createCacheProvider config d = Ok p
    /\ V1.map p = []
    /\ Idb.records (V1.store p) = ∅
    /\ V1.pending p = [].
Proof.
  intros Hversion Hstore Hpos Hhook.
  unfold V1.createCacheProvider, Idb.openDB. rewrite Hversion.
  replace (Nat.eqb (V1.requestedVersion config) 0) with false
    by (symmetry; apply Nat.eqb_neq; lia).
  replace (Nat.ltb (V1.requestedVersion config) 0) with false
    by (symmetry; apply Nat.ltb_ge; lia).
  replace (Nat.ltb 0 (V1.requestedVersion config)) with true
    by (symmetry; apply Nat.ltb_lt; lia).
  unfold V1.upgrade, Idb.createObjectStore. rewrite Hstore. simpl.
  assert (forall os : Idb.ObjectStore Raw,
            Idb.records os = ∅ -> V1.hydrate config os = Ok []) as Hempty.
  { intros os Hos. unfold V1.hydrate, Idb.openCursor.
    by rewrite Hos, map_to_list_empty. }
  destruct (V1.upgradeObjectStore handler) as [hook|] eqn:Hh.
  - destruct (Hhook hook eq_refl) as (os & -> & Hos). simpl.
    unfold Idb.transactionStore. simpl. rewrite lookup_insert_eq. simpl.
    rewrite (Hempty os Hos). simpl. eexists. split; [reflexivity|]. by simpl.
  - simpl. unfold Idb.transactionStore. simpl. rewrite lookup_insert_eq. simpl.
    rewrite (Hempty Idb.emptyObjectStore eq_refl). simpl.
    eexists. split; [reflexivity|]. by simpl.
Qed.
End V1Properties.

Section V1Versions.
Context {TValue Raw : Type}.
Variable config : V1.TConfig TValue Raw.

(** X21. In the plain-value variant an object store that exists pins the
    version: the upgrade callback creates the store without dropping the
    old one, so opening at a higher version fails, and construction can
    succeed only at exactly the stored version. *)
Theorem plain_existing_store_pins_version (d : Idb.Database Raw)
    (os : Idb.ObjectStore Raw) :
  Idb.objectStores d !! V1.storeName config = Some os ->
  (Idb.version d < V1.requestedVersion config ->
   exists e, V1.createCacheProvider config d = Throw e)
  /\ (forall p, V1.createCacheProvider config d = Ok p ->
        V1.requestedVersion config = Idb.version d).
Proof.
  intros Hstore. split.
  - intros Hlt. exists ConstraintError.
    apply (upgrade_existing_fails config d os); [lia|done|done].
  - intros p. unfold V1.createCacheProvider, Idb.openDB.
    destruct (Nat.eqb (V1.requestedVersion config) 0) eqn:Hzero; [done|].
    destruct (Nat.ltb (V1.requestedVersion config) (Idb.version d)) eqn:Hlow;
      [done|].
    destruct (Nat.ltb (Idb.version d) (V1.requestedVersion config)) eqn:Hhigh.
    + unfold V1.upgrade, Idb.createObjectStore. by rewrite Hstore.
    + intros _. apply Nat.ltb_ge in Hlow, Hhigh. lia.
Qed.
End V1Versions.

(** ** Concrete instances of the further properties *)

Lemma hydrated_mirror_matches_store_witness :
  let config := Examples.timestampConfig 100 50 None in
  let m := [("new", Examples.loaded "b")] in
  (forall key,
     is_Some (JsMap.get key m) <-> is_Some (Idb.records Cases.pruned !! key))
  /\ (forall key raw, Idb.records Cases.pruned !! key = Some raw ->
        Idb.records Examples.stamped !! key = Some raw
        /\ exists value,
             V2.revive (V2.storageHandler config) key raw = Ok (Some value)
             /\ JsMap.get key m = Some value)
  /\ Idb.indexNames Cases.pruned = Idb.indexNames Examples.stamped
  /\ NoDup (JsMap.keys m).
Proof.
  apply (hydrated_mirror_matches_store
           (Examples.timestampConfig 100 50 None) Examples.stamped
           [("new", Examples.loaded "b")] Cases.pruned).
  vm_compute. reflexivity.
Defined.


Lemma reopen_same_version_hydrates_store_witness :
  let config := Examples.config Examples.simpleStorageHandler (Some 1) in
  V2.createCacheProvider config Examples.populated =
    match V2.hydrate config Examples.responses with
    | Ok (m, os') =>
        Ok {| V2.map := m; V2.store := os'; V2.pending := [];
              V2.onErrorCallback := V2.configuredOnError config;
              V2.onErrorCalls := []; V2.unhandledRejections := [] |}
    | Throw e => Throw e
    end.
Proof.
  apply (reopen_same_version_hydrates_store
           (Examples.config Examples.simpleStorageHandler (Some 1))
           Examples.populated Examples.responses).
  - reflexivity.
  - vm_compute. lia.
  - vm_compute. reflexivity.
Defined.

Lemma first_open_creates_empty_store_witness :
  let config := Examples.timestampConfig 100 50 None in
  exists p,
    V2.createCacheProvider config Cases.stampedBlank = Ok p
    /\ V2.map p = []
    /\ Idb.records (V2.store p) = ∅
    /\ V2.pending p = []
    /\ (V2.upgradeObjectStore (V2.storageHandler config) = None ->
        V2.store p = Idb.emptyObjectStore).
Proof.
  apply (first_open_creates_empty_store
           (Examples.timestampConfig 100 50 None) Cases.stampedBlank).
  - reflexivity.
  - vm_compute. reflexivity.
  - vm_compute. lia.
  - intros hook [= <-]. eexists. split; reflexivity.
Defined.

Lemma missing_store_fails_witness :
  exists e,
    V2.createCacheProvider
      (Examples.config Examples.simpleStorageHandler (Some 2)) Cases.renamed
    = Throw e.
Proof.
  apply (missing_store_fails
           (Examples.config Examples.simpleStorageHandler (Some 2))
           Cases.renamed).
  - vm_compute. lia.
  - vm_compute. lia.
  - vm_compute. reflexivity.
Defined.

Lemma keys_distinct_and_match_get_witness :
  let cache :=
    V2.cacheProvider (Examples.config Examples.simpleStorageHandler None) [] in
  NoDup (V2.keys cache (V2.run cache Cases.orderly Examples.fresh).2)
  /\ (forall key,
        key ∈ V2.keys cache (V2.run cache Cases.orderly Examples.fresh).2
        <-> is_Some
              (V2.get cache key (V2.run cache Cases.orderly Examples.fresh).2)).
Proof.
  apply (keys_distinct_and_match_get
           (Examples.config Examples.simpleStorageHandler None) []
           Examples.blank Examples.fresh Cases.orderly).
  vm_compute. reflexivity.
Defined.

Lemma calls_throw_only_what_replace_throws_witness :
  let config := Examples.config Examples.throwingHandler None in
  let events := [V2.Invoke (V2.CallSet "user:1" (Examples.loaded "a"))] in
  exists key value,
    V2.Invoke (V2.CallSet key value) ∈ events
    /\ V2.isFetchInfo value = false
    /\ V2.replace (V2.storageHandler config) key value =
         Throw (HandlerError "replace").
Proof.
  apply (calls_throw_only_what_replace_throws
           (Examples.config Examples.throwingHandler None) []
           [V2.Invoke (V2.CallSet "user:1" (Examples.loaded "a"))]
           Examples.fresh (HandlerError "replace")).
  vm_compute. apply elem_of_cons. left. reflexivity.
Defined.

Lemma no_unhandled_rejection_without_clear_witness :
  let cache :=
    V2.cacheProvider (Examples.config Examples.simpleStorageHandler None) [] in
  let final := (V2.run cache Cases.failing Cases.grumpy).2 in
  (forall e, e ∈ V2.unhandledRejections final ->
     e ∈ V2.unhandledRejections Cases.grumpy
     \/ exists failure, V2.onErrorCallback Cases.grumpy failure = Throw e)
  /\ ((forall failure, V2.onErrorCallback Cases.grumpy failure = Ok ()) ->
      V2.unhandledRejections final = V2.unhandledRejections Cases.grumpy)
  /\ Forall (fun request => request.2 = Idb.CatchOnError) (V2.pending final).
Proof.
  apply (no_unhandled_rejection_without_clear
           (Examples.config Examples.simpleStorageHandler None) []
           Cases.failing Cases.grumpy).
  - apply Forall_nil_2.
  - intros H. unfold Cases.failing in H.
    repeat (apply elem_of_cons in H as [H|H]; [discriminate H|]).
    by apply elem_of_nil in H.
Defined.

Lemma set_survives_reload_witness :
  let config := Examples.config Examples.simpleStorageHandler None in
  let cache := V2.cacheProvider config [] in
  let p' :=
    V2.settle 0 Idb.Fulfilled
      (V2.set cache "user:2" (Examples.loaded "b") Cases.warm).2 in
  V2.pending p' = []
  /\ Idb.records (V2.store p') !! "user:2" = Some (Examples.loaded "b")
  /\ exists m os',
       V2.hydrate config (V2.store p') = Ok (m, os')
       /\ JsMap.get "user:2" m = Some (Examples.loaded "b").
Proof.
  apply (set_survives_reload
           (Examples.config Examples.simpleStorageHandler None) []
           "user:2" (Examples.loaded "b") (Examples.loaded "b") Cases.warm).
  - reflexivity.
  - reflexivity.
  - reflexivity.
  - reflexivity.
  - intros k r _. eexists. reflexivity.
Defined.

Lemma delete_survives_reload_witness :
  let config := Examples.config Examples.simpleStorageHandler None in
  let cache := V2.cacheProvider config [] in
  let p' := V2.settle 0 Idb.Fulfilled (V2.delete cache "user:1" Cases.warm) in
  V2.get cache "user:1" p' = None
  /\ Idb.records (V2.store p') !! "user:1" = None
  /\ exists m os',
       V2.hydrate config (V2.store p') = Ok (m, os')
       /\ JsMap.get "user:1" m = None.
Proof.
  apply (delete_survives_reload
           (Examples.config Examples.simpleStorageHandler None) []
           "user:1" Cases.warm).
  - reflexivity.
  - reflexivity.
  - intros k r _. eexists. reflexivity.
Defined.

Lemma clear_survives_reload_witness :
  let config := Examples.config Examples.simpleStorageHandler None in
  let cache := V2.cacheProvider config [] in
  let p' := V2.settle 0 Idb.Fulfilled (V2.clear cache Cases.warm) in
  V2.pending (V2.clear cache Cases.warm) = [(Idb.Clear, Idb.NoCatch)]
  /\ V2.keys cache p' = []
  /\ (forall key, V2.get cache key p' = None)
  /\ Idb.records (V2.store p') = ∅
  /\ V2.hydrate config (V2.store p') = Ok ([], V2.store p').
Proof.
  apply (clear_survives_reload
           (Examples.config Examples.simpleStorageHandler None) [] Cases.warm).
  reflexivity.
Defined.

Lemma set_not_persisted_when_replace_declines_witness :
  let cache := V2.cacheProvider (Examples.config Cases.pickyHandler None) [] in
  V2.invoke cache (V2.CallSet "user:5" Cases.refused) Cases.warm =
    (V2.RetVoid,
     V2.withMap (JsMap.set "user:5" Cases.refused (V2.map Cases.warm)) Cases.warm)
  /\ V2.get cache "user:5" (V2.set cache "user:5" Cases.refused Cases.warm).2 =
       Some Cases.refused
  /\ V2.pending (V2.set cache "user:5" Cases.refused Cases.warm).2 =
       V2.pending Cases.warm
  /\ V2.store (V2.set cache "user:5" Cases.refused Cases.warm).2 =
       V2.store Cases.warm.
Proof.
  apply (set_not_persisted_when_replace_declines
           (Examples.config Cases.pickyHandler None) []
           "user:5" Cases.refused Cases.warm); reflexivity.
Defined.

Lemma durable_keys_within_mirror_witness :
  let cache :=
    V2.cacheProvider (Examples.config Examples.simpleStorageHandler None) [] in
  let final := (V2.run cache Cases.orderly Examples.fresh).2 in
  (forall key,
     is_Some (Idb.records
                (Durable.flush (V2.pending final).*1 (V2.store final)) !! key) ->
     is_Some (V2.get cache key final))
  /\ (V2.pending final = [] ->
      forall key,
        is_Some (Idb.records (V2.store final) !! key) ->
        is_Some (V2.get cache key final)).
Proof.
  apply (durable_keys_within_mirror
           (Examples.config Examples.simpleStorageHandler None) []
           Examples.blank Examples.fresh Cases.orderly).
  - vm_compute. reflexivity.
  - intros i o H. unfold Cases.orderly in H.
    repeat (apply elem_of_cons in H as [H|H];
            [first [discriminate H | by injection H as -> ->]|]).
    by apply elem_of_nil in H.
Defined.

Lemma plain_set_reserved_key_stays_in_memory_witness :
  let cache := V1.cacheProvider Cases.plainThrowingConfig [] in
  V1.invoke cache (V1.CallSet "$req$user:1" "pending") Examples.plainFresh =
    (V1.RetVoid,
     V1.withMap (JsMap.set "$req$user:1" "pending" (V1.map Examples.plainFresh))
       Examples.plainFresh)
  /\ V1.get cache "$req$user:1"
       (V1.set cache "$req$user:1" "pending" Examples.plainFresh).2 =
       Some "pending"
  /\ V1.pending (V1.set cache "$req$user:1" "pending" Examples.plainFresh).2 =
       V1.pending Examples.plainFresh
  /\ V1.store (V1.set cache "$req$user:1" "pending" Examples.plainFresh).2 =
       V1.store Examples.plainFresh.
Proof.
  apply (plain_set_reserved_key_stays_in_memory Cases.plainThrowingConfig []
           "$req$user:1" "pending" Examples.plainFresh).
  reflexivity.
Defined.

Lemma plain_set_eligible_key_witness :
  let cache := V1.cacheProvider Cases.plainThrowingConfig [] in
  V1.get cache "user:1" (V1.set cache "user:1" "a" Examples.plainFresh).2 =
    Some "a"
  /\ V1.invoke cache (V1.CallSet "user:1" "a") Examples.plainFresh =
       (V1.Thrown (HandlerError "replace"),
        V1.withMap (JsMap.set "user:1" "a" (V1.map Examples.plainFresh))
          Examples.plainFresh).
Proof.
  apply (plain_set_eligible_key Cases.plainThrowingConfig []
           "user:1" "a" Examples.plainFresh).
  reflexivity.
Defined.

Lemma plain_reopen_loads_every_record_witness :
  let config := Examples.plainConfig (Some 1) in
  let cache := V1.cacheProvider config [] in
  exists p,
    V1.createCacheProvider config Cases.plainStored = Ok p
    /\ V1.store p = Cases.plainStore
    /\ V1.pending p = []
    /\ (forall key raw, Idb.records Cases.plainStore !! key = Some raw ->
          exists value, V1.revive (V1.storageHandler config) raw = Ok value
                        /\ V1.get cache key p = Some value)
    /\ (forall key, Idb.records Cases.plainStore !! key = None ->
          V1.get cache key p = None).
Proof.
  apply (plain_reopen_loads_every_record (Examples.plainConfig (Some 1)) []
           Cases.plainStored Cases.plainStore).
  - reflexivity.
  - vm_compute. lia.
  - vm_compute. reflexivity.
  - intros key raw _. eexists. reflexivity.
Defined.

Lemma plain_first_open_creates_empty_store_witness :
  exists p,
    V1.createCacheProvider (Examples.plainConfig None) Cases.plainBlank = Ok p
    /\ V1.map p = []
    /\ Idb.records (V1.store p) = ∅
    /\ V1.pending p = [].
Proof.
  apply (plain_first_open_creates_empty_store (Examples.plainConfig None)
           Cases.plainBlank).
  - reflexivity.
  - vm_compute. reflexivity.
  - vm_compute. lia.
  - intros hook H. discriminate H.
Defined.

Lemma plain_existing_store_pins_version_witness :
  let config := Examples.plainConfig (Some 2) in
  (Idb.version Cases.plainStored < V1.requestedVersion config ->
   exists e, V1.createCacheProvider config Cases.plainStored = Throw e)
  /\ (forall p, V1.createCacheProvider config Cases.plainStored = Ok p ->
        V1.requestedVersion config = Idb.version Cases.plainStored).
Proof.
  apply (plain_existing_store_pins_version (Examples.plainConfig (Some 2))
           Cases.plainStored Cases.plainStore).
  vm_compute. reflexivity.
Defined.

(** X22. The keys kept out of the durable store by the plain-value variant
    are exactly those that begin with the character [$]; every other key,
    the empty one included, is eligible. *)
Theorem isResponseResult_false_iff_dollar (key : TKey) :
  (V1.isResponseResult key = false <-> exists rest, key = ("$" ++ rest)%string)
  /\ V1.isResponseResult "" = true.
Proof.
  split; [|reflexivity]. unfold V1.isResponseResult.
  destruct key as [|c rest].
  - split; [done|]. intros [r Hr]. done.
  - cbn [String.prefix].
    destruct (Ascii.ascii_dec _ c) as [<-|Hne].
    + split; [intros _; by exists rest|]. intros _. by destruct rest.
    + split; [done|]. intros [r Hr]. simpl in Hr. injection Hr as Hc _.
      congruence.
Qed.

(** C7, the claim as stated fails: a store populated at version 1 and
    opened at version 2 with a handler whose hook seeds the recreated
    store.  The old records are gone, but the seeded record is in the
    durable store and hydration loads it, so neither the Mirror nor the
    store is empty.  On the same database the plain-value variant, whose
    callback creates the store without dropping the old one, does not
    construct a provider at all. *)
Lemma version_upgrade_with_seeding_hook :
  let config := Examples.config Cases.seedingHandler (Some 2) in
  Idb.version Examples.populated = 1
  /\ Idb.objectStores Examples.populated !! V2.storeName config =
       Some Examples.responses
  /\ (exists p,
        V2.createCacheProvider config Examples.populated = Ok p
        /\ V2.map p = [("schema", Examples.loaded "v2")]
        /\ V2.map p <> []
        /\ Idb.records (V2.store p) !! "schema" = Some (Examples.loaded "v2")
        /\ Idb.records (V2.store p) !! "user:1" = None)
  /\ (exists e,
        V1.createCacheProvider (Examples.plainConfig (Some 2)) Cases.plainStored
        = Throw e).
Proof.
  vm_compute. split; [reflexivity|]. split; [reflexivity|]. split.
  - eexists. split; [reflexivity|]. vm_compute.
    repeat split; try reflexivity. discriminate.
  - eexists. reflexivity.
Qed.

(** An [onError] that throws leaves a rejection nobody handles, although
    [clear] was never called. *)
Example scenario_onError_throws :
  let cache :=
    V2.cacheProvider (Examples.config Examples.simpleStorageHandler None) [] in
  let final := (V2.run cache Cases.failing Cases.grumpy).2 in
  V2.onErrorCalls final = [NotFoundError; QuotaExceededError]
  /\ V2.unhandledRejections final = [HandlerError "quota"].
Proof. vm_compute. split; reflexivity. Qed.
